(** * integral-payments: the payment page's session state

    A shallow embedding of the two versions of the [PaymentPlatform] React
    component (stellar-payment-platform-0.tsx with the JSON loader, the
    clipboard feedback and the wallet modals; stellar-payment-platform-1.tsx
    with fixed sample data), and the properties of its handlers.

    The component's [useState] cells become the fields of a record, each
    handler a function from the record to the new record and the effects it
    emits on the way (alert, console.log, clipboard write, setTimeout). *)

From Stdlib Require Import String Ascii List ZArith Bool Lia DecimalString
  DecimalNat.
Import ListNotations.

Open Scope string_scope.
Open Scope list_scope.

(** ** Exceptions

    A JavaScript expression either yields a value or throws; [None] is the
    throw.  The handlers below only ever catch everything, so the thrown
    value itself is not kept. *)

Definition bind {A B : Type} (c : option A) (k : A -> option B) : option B :=
  match c with
  | Some a => k a
  | None => None
  end.

Notation "x <- c ;; k" := (bind c (fun x => k))
  (at level 61, c at next level, right associativity).
Notation "' p <- c ;; k" := (bind c (fun x => let 'p := x in k))
  (at level 61, p pattern, c at next level, right associativity).

(** ** JSON values and [JSON.parse] *)

Module JSON.

(** The values [JSON.parse] can return.  A number is the double nearest to
    [mantissa * 10 ^ exponent], named by that decimal: the handlers only test a
    number against zero and store it, and a double is zero exactly when its
    [mantissa] here is.  An object keeps its members in source order, repeated
    keys included. *)
#[warnings="-register-all"]
Inductive JSValue : Type :=
| JNull
| JBool (b : bool)
| JNumber (mantissa exponent : Z)
| JString (s : string)
| JArray (items : list JSValue)
| JObject (members : list (string * JSValue)).

Definition dquote : ascii := "034"%char.
Definition backslash : ascii := "092"%char.

Definition is_ws (c : ascii) : bool :=
  (c =? " ")%char || (c =? "009")%char || (c =? "010")%char || (c =? "013")%char.

Fixpoint skip_ws (s : string) : string :=
  match s with
  | String c r => if is_ws c then skip_ws r else s
  | EmptyString => s
  end.

Definition code (c : ascii) : Z := Z.of_nat (nat_of_ascii c).

Definition digit_val (c : ascii) : option Z :=
  let n := code c in
  if (48 <=? n)%Z && (n <=? 57)%Z then Some (n - 48)%Z else None.

Definition hex_val (c : ascii) : option Z :=
  let n := code c in
  if (48 <=? n)%Z && (n <=? 57)%Z then Some (n - 48)%Z
  else if (65 <=? n)%Z && (n <=? 70)%Z then Some (n - 55)%Z
  else if (97 <=? n)%Z && (n <=? 102)%Z then Some (n - 87)%Z
  else None.

(** [digits acc count s] reads the longest run of decimal digits at the head of
    [s], accumulating their value on [acc] and their number on [count]. *)
Fixpoint digits (acc count : Z) (s : string) : Z * Z * string :=
  match s with
  | String c r =>
      match digit_val c with
      | Some d => digits (10 * acc + d)%Z (count + 1)%Z r
      | None => (acc, count, s)
      end
  | EmptyString => (acc, count, s)
  end.

Definition some_digits (acc : Z) (s : string) : option (Z * Z * string) :=
  let '(v, n, r) := digits acc 0 s in
  if (n =? 0)%Z then None else Some (v, n, r).

(** [exponent s]: the optional [e]/[E] part of a number. *)
Definition exponent (s : string) : option (Z * string) :=
  match s with
  | String c r =>
      if (c =? "e")%char || (c =? "E")%char then
        let '(sign, r1) :=
          match r with
          | String c1 r' =>
              if (c1 =? "+")%char then (1%Z, r')
              else if (c1 =? "-")%char then ((-1)%Z, r')
              else (1%Z, r)
          | EmptyString => (1%Z, r)
          end in
        '(v, _, r2) <- some_digits 0 r1 ;;
        Some ((sign * v)%Z, r2)
      else Some (0%Z, s)
  | EmptyString => Some (0%Z, s)
  end.

(** A decimal too small for a double: at most half the least positive double,
    [2 ^ -1074], it rounds to zero. *)
Definition rounds_to_zero (m e : Z) : bool :=
  (m =? 0)%Z || ((e <? 0)%Z && (Z.abs m * 2 ^ 1075 <=? 10 ^ (- e))%Z).

Definition number (m e : Z) : JSValue :=
  if rounds_to_zero m e then JNumber 0 0 else JNumber m e.

(** The JSON number grammar: an optional minus sign; the integer part, a
    single 0 or a digit 1-9 followed by digits; an optional fraction, a dot and
    at least one digit; an optional exponent. *)
Definition parse_number (s : string) : option (JSValue * string) :=
  let '(neg, s1) :=
    match s with
    | String c r => if (c =? "-")%char then (true, r) else (false, s)
    | EmptyString => (false, s)
    end in
  match s1 with
  | String c r =>
      d <- digit_val c ;;
      let '(int_part, s2) :=
        if (d =? 0)%Z then (0%Z, r)
        else let '(v, _, r') := digits d 1 r in (v, r') in
      '(m, frac_len, s3) <-
        match s2 with
        | String c2 r2 =>
            if (c2 =? ".")%char then some_digits int_part r2
            else Some (int_part, 0%Z, s2)
        | EmptyString => Some (int_part, 0%Z, s2)
        end ;;
      '(e, s4) <- exponent s3 ;;
      Some (number (if neg then (- m)%Z else m) (e - frac_len)%Z, s4)
  | EmptyString => None
  end.

Definition byte (n : Z) : ascii := ascii_of_nat (Z.to_nat n).

(** The bytes of a code point in UTF-8.  A lone surrogate, which a JavaScript
    string may hold, is written like any other code unit of its range. *)
Definition utf8 (u : Z) : string :=
  if (u <? 128)%Z then String (byte u) EmptyString
  else if (u <? 2048)%Z then
    String (byte (192 + u / 64)) (String (byte (128 + u mod 64)) EmptyString)
  else if (u <? 65536)%Z then
    String (byte (224 + u / 4096))
      (String (byte (128 + (u / 64) mod 64))
         (String (byte (128 + u mod 64)) EmptyString))
  else
    String (byte (240 + u / 262144))
      (String (byte (128 + (u / 4096) mod 64))
         (String (byte (128 + (u / 64) mod 64))
            (String (byte (128 + u mod 64)) EmptyString))).

(** The code unit of four hexadecimal digits. *)
Definition hex4 (h3 h2 h1 h0 : ascii) : option Z :=
  a <- hex_val h3 ;; b <- hex_val h2 ;; c <- hex_val h1 ;; d <- hex_val h0 ;;
  Some (4096 * a + 256 * b + 16 * c + d)%Z.

Definition high_surrogate (u : Z) : bool := (55296 <=? u)%Z && (u <=? 56319)%Z.
Definition low_surrogate (u : Z) : bool := (56320 <=? u)%Z && (u <=? 57343)%Z.

(** The code point of a surrogate pair. *)
Definition paired (high low : Z) : Z :=
  (65536 + (high - 55296) * 1024 + (low - 56320))%Z.

(** [low_escape high b u l3 l2 l1 l0]: the low surrogate that the six
    characters after the escape of [high] spell, when [high] is a high
    surrogate and they are the escape of a low one. *)
Definition low_escape (high : Z) (b u l3 l2 l1 l0 : ascii) : option Z :=
  if high_surrogate high && (b =? backslash)%char && (u =? "u")%char then
    low <- hex4 l3 l2 l1 l0 ;;
    if low_surrogate low then Some low else None
  else None.

Definition simple_escape (c : ascii) : option ascii :=
  if (c =? dquote)%char then Some dquote
  else if (c =? backslash)%char then Some backslash
  else if (c =? "/")%char then Some "/"%char
  else if (c =? "b")%char then Some "008"%char
  else if (c =? "f")%char then Some "012"%char
  else if (c =? "n")%char then Some "010"%char
  else if (c =? "r")%char then Some "013"%char
  else if (c =? "t")%char then Some "009"%char
  else None.

(** [string_body s] reads a string's characters up to its closing quote; [s]
    starts just after the opening quote.  An escaped high surrogate followed
    by an escaped low one is the one character they spell. *)
Fixpoint string_body (s : string) : option (string * string) :=
  match s with
  | EmptyString => None
  | String c r =>
      if (c =? dquote)%char then Some (EmptyString, r)
      else if (c =? backslash)%char then
        match r with
        | String e r1 =>
            if (e =? "u")%char then
              match r1 with
              | String h3 (String h2 (String h1 (String h0 r2))) =>
                  unit <- hex4 h3 h2 h1 h0 ;;
                  let alone :=
                    '(t, rest) <- string_body r2 ;;
                    Some ((utf8 unit ++ t)%string, rest) in
                  match r2 with
                  | String b (String u (String l3 (String l2 (String l1
                      (String l0 r3))))) =>
                      match low_escape unit b u l3 l2 l1 l0 with
                      | Some low =>
                          '(t, rest) <- string_body r3 ;;
                          Some ((utf8 (paired unit low) ++ t)%string, rest)
                      | None => alone
                      end
                  | _ => alone
                  end
              | _ => None
              end
            else
              ch <- simple_escape e ;;
              '(t, rest) <- string_body r1 ;;
              Some (String ch t, rest)
        | EmptyString => None
        end
      else if (code c <? 32)%Z then None
      else
        '(t, rest) <- string_body r ;;
        Some (String c t, rest)
  end.

(** [strip_prefix w s]: [s] without its prefix [w]. *)
Fixpoint strip_prefix (w s : string) : option string :=
  match w with
  | EmptyString => Some s
  | String a w' =>
      match s with
      | String b s' => if (a =? b)%char then strip_prefix w' s' else None
      | EmptyString => None
      end
  end.

(** [keyword w v s]: the literal [w] at the head of [s]. *)
Definition keyword (w : string) (v : JSValue) (s : string)
  : option (JSValue * string) :=
  r <- strip_prefix w s ;; Some (v, r).

(** Recursive descent.  Every call spends one unit of [fuel]; [parse] below
    starts with two units for each character of the text. *)
Fixpoint parse_value (fuel : nat) (s : string) : option (JSValue * string) :=
  match fuel with
  | O => None
  | S f =>
      match skip_ws s with
      | EmptyString => None
      | String c r as s' =>
          if (c =? "{")%char then
            match skip_ws r with
            | String c1 r1 =>
                if (c1 =? "}")%char then Some (JObject [], r1)
                else parse_members f r []
            | EmptyString => None
            end
          else if (c =? "[")%char then
            match skip_ws r with
            | String c1 r1 =>
                if (c1 =? "]")%char then Some (JArray [], r1)
                else parse_elements f r []
            | EmptyString => None
            end
          else if (c =? dquote)%char then
            '(t, rest) <- string_body r ;; Some (JString t, rest)
          else if (c =? "t")%char then keyword "true" (JBool true) s'
          else if (c =? "f")%char then keyword "false" (JBool false) s'
          else if (c =? "n")%char then keyword "null" JNull s'
          else parse_number s'
      end
  end
with parse_elements (fuel : nat) (s : string) (acc : list JSValue)
  : option (JSValue * string) :=
  match fuel with
  | O => None
  | S f =>
      '(v, r) <- parse_value f s ;;
      match skip_ws r with
      | String c r1 =>
          if (c =? ",")%char then parse_elements f r1 (v :: acc)
          else if (c =? "]")%char then Some (JArray (rev (v :: acc)), r1)
          else None
      | EmptyString => None
      end
  end
with parse_members (fuel : nat) (s : string) (acc : list (string * JSValue))
  : option (JSValue * string) :=
  match fuel with
  | O => None
  | S f =>
      match skip_ws s with
      | String c r =>
          if (c =? dquote)%char then
            '(k, r1) <- string_body r ;;
            match skip_ws r1 with
            | String c1 r2 =>
                if (c1 =? ":")%char then
                  '(v, r3) <- parse_value f r2 ;;
                  match skip_ws r3 with
                  | String c3 r4 =>
                      if (c3 =? ",")%char then parse_members f r4 ((k, v) :: acc)
                      else if (c3 =? "}")%char
                      then Some (JObject (rev ((k, v) :: acc)), r4)
                      else None
                  | EmptyString => None
                  end
                else None
            | EmptyString => None
            end
          else None
      | EmptyString => None
      end
  end.

(** [JSON.parse(text)]: one value, surrounded by white space only; [None] is
    the SyntaxError. *)
Definition parse (text : string) : option JSValue :=
  '(v, r) <- parse_value (2 * String.length text + 2) text ;;
  match skip_ws r with
  | EmptyString => Some v
  | String _ _ => None
  end.

(** JSON texts are written below with ['] for the double quote. *)
Definition text (s : string) : string :=
  let fix go (s : string) : string :=
    match s with
    | String c r => String (if (c =? "'")%char then dquote else c) (go r)
    | EmptyString => EmptyString
    end in
  go s.

End JSON.
Export JSON.

(** ** JavaScript expressions over parsed values *)

(** [truthy v]: what [v || d] and [!v] test. *)
Definition truthy (v : JSValue) : bool :=
  match v with
  | JNull => false
  | JBool b => b
  | JNumber m _ => negb (m =? 0)%Z
  | JString EmptyString => false
  | JString (String _ _) => true
  | JArray _ => true
  | JObject _ => true
  end.

(** The member of an object literal's list that a key denotes: the last one
    written. *)
Fixpoint own (members : list (string * JSValue)) (key : string) : option JSValue :=
  match members with
  | [] => None
  | (k, v) :: rest =>
      match own rest key with
      | Some later => Some later
      | None => if (k =? key)%string then Some v else None
      end
  end.

(** [data.key] for the keys the loader reads, none of which is a built-in
    property of a string, an array, a number, a boolean or a plain object:
    reading from [null] throws a TypeError (outer [None]), a key that is not
    there reads as [undefined] (inner [None]). *)
Definition member (data : JSValue) (key : string) : option (option JSValue) :=
  match data with
  | JNull => None
  | JObject members => Some (own members key)
  | JBool _ | JNumber _ _ | JString _ | JArray _ => Some None
  end.

(** [v || d], with [v] possibly [undefined]. *)
Definition or_else (v : option JSValue) (d : JSValue) : JSValue :=
  match v with
  | Some x => if truthy x then x else d
  | None => d
  end.

(** A template literal, kept as its parts: the text between the holes and the
    values in the holes. *)
Inductive Piece : Type :=
| Lit (s : string)
| Val (v : JSValue).

(** What a handler does to the world outside the component's state. *)
Inductive Effect : Type :=
| Alert (message : list Piece)
| ConsoleLog (message : list Piece)
| ClipboardWrite (content : JSValue)
| SetTimeout (delay : Z).

Definition newline : string := String "010"%char EmptyString.

(** [index.toString()] for an array index. *)
Definition index_string (i : nat) : string :=
  NilEmpty.string_of_uint (Nat.to_uint i).

(** ** stellar-payment-platform-0.tsx *)

Module Platform0.

Record PaymentData : Type := mkPaymentData {
  amount : JSValue;
  xlmAddresses : JSValue;
  usdcAddresses : JSValue;
  denomination : JSValue;
  businessName : JSValue;
  description : JSValue
}.

(** The five [useState] cells. *)
Record State : Type := mkState {
  paymentData : PaymentData;
  showXLMModal : bool;
  showUSDCModal : bool;
  copiedAddress : string;
  jsonInput : string
}.

Definition blank : JSValue := JString EmptyString.
Definition three_blank : JSValue := JArray [blank; blank; blank].

Definition initial : State :=
  {| paymentData :=
       {| amount := blank;
          xlmAddresses := three_blank;
          usdcAddresses := three_blank;
          denomination := blank;
          businessName := blank;
          description := blank |};
     showXLMModal := false;
     showUSDCModal := false;
     copiedAddress := EmptyString;
     jsonInput := EmptyString |}.

Definition setPaymentData (st : State) (d : PaymentData) : State :=
  {| paymentData := d;
     showXLMModal := showXLMModal st;
     showUSDCModal := showUSDCModal st;
     copiedAddress := copiedAddress st;
     jsonInput := jsonInput st |}.

Definition setShowXLMModal (st : State) (b : bool) : State :=
  {| paymentData := paymentData st;
     showXLMModal := b;
     showUSDCModal := showUSDCModal st;
     copiedAddress := copiedAddress st;
     jsonInput := jsonInput st |}.

Definition setShowUSDCModal (st : State) (b : bool) : State :=
  {| paymentData := paymentData st;
     showXLMModal := showXLMModal st;
     showUSDCModal := b;
     copiedAddress := copiedAddress st;
     jsonInput := jsonInput st |}.

Definition setCopiedAddress (st : State) (key : string) : State :=
  {| paymentData := paymentData st;
     showXLMModal := showXLMModal st;
     showUSDCModal := showUSDCModal st;
     copiedAddress := key;
     jsonInput := jsonInput st |}.

Definition setJsonInput (st : State) (s : string) : State :=
  {| paymentData := paymentData st;
     showXLMModal := showXLMModal st;
     showUSDCModal := showUSDCModal st;
     copiedAddress := copiedAddress st;
     jsonInput := s |}.

(** The body of [loadFromJSON]'s [try]: the object handed to
    [setPaymentData], or the throw. *)
Definition parsed_payment (input : string) : option PaymentData :=
  data <- JSON.parse input ;;
  a <- member data "amount" ;;
  x <- member data "xlmAddresses" ;;
  u <- member data "usdcAddresses" ;;
  d <- member data "denomination" ;;
  b <- member data "businessName" ;;
  t <- member data "description" ;;
  Some {| amount := or_else a blank;
          xlmAddresses := or_else x three_blank;
          usdcAddresses := or_else u three_blank;
          denomination := or_else d blank;
          businessName := or_else b blank;
          description := or_else t blank |}.

Definition invalid_json : Effect := Alert [Lit "Invalid JSON format"].

Definition loadFromJSON (st : State) : State * list Effect :=
  match parsed_payment (jsonInput st) with
  | Some d => (setPaymentData st d, [])
  | None => (st, [invalid_json])
  end.

(** The clipboard the browser offers: [navigator.clipboard] may be missing
    (reading [writeText] off it throws), and a write it accepts returns a
    promise that later resolves or rejects.  The handler does not look at the
    promise. *)
Inductive Clipboard : Type :=
| NoClipboard
| WriteResolves
| WriteRejects.

Definition copyToClipboard (clip : Clipboard) (st : State)
    (content : JSValue) (type : string) : option (State * list Effect) :=
  match clip with
  | NoClipboard => None
  | WriteResolves | WriteRejects =>
      Some (setCopiedAddress st type, [ClipboardWrite content; SetTimeout 2000])
  end.

(** The callback [copyToClipboard] hands to [setTimeout]. *)
Definition clear_copied (st : State) : State := setCopiedAddress st EmptyString.

Definition connectToStellarWallet (st : State) (address : JSValue) (index : nat)
  : State * list Effect :=
  (st,
   [ConsoleLog [Lit "Connecting to Stellar Wallet for address: "; Val address];
    Alert [Lit "Connecting to Stellar Wallet for payment of ";
           Val (amount (paymentData st)); Lit (" XLM" ++ newline ++ "Address: ");
           Val address]]).

Definition connectToUSDCWallet (st : State) (address : JSValue) (index : nat)
  : State * list Effect :=
  (st,
   [ConsoleLog [Lit "Connecting to USDC Wallet for address: "; Val address];
    Alert [Lit "Connecting to USDC Wallet for payment of ";
           Val (amount (paymentData st)); Lit (" USDC" ++ newline ++ "Address: ");
           Val address]]).

(** *** The page: what the payer can do, and when *)

Inductive Currency : Type := XLM | USDC.

Definition currency_name (c : Currency) : string :=
  match c with XLM => "XLM" | USDC => "USDC" end.

Definition isOpen (c : Currency) (st : State) : bool :=
  match c with XLM => showXLMModal st | USDC => showUSDCModal st end.

Definition addresses (c : Currency) (st : State) : JSValue :=
  match c with
  | XLM => xlmAddresses (paymentData st)
  | USDC => usdcAddresses (paymentData st)
  end.

Definition onConnect (c : Currency) : State -> JSValue -> nat -> State * list Effect :=
  match c with XLM => connectToStellarWallet | USDC => connectToUSDCWallet end.

Definition setShowModal (c : Currency) : State -> bool -> State :=
  match c with XLM => setShowXLMModal | USDC => setShowUSDCModal end.

(** The key of an address's Copy button. *)
Definition copy_key (c : Currency) (index : nat) : string :=
  (currency_name c ++ "-" ++ index_string index)%string.

(** The address the buttons of row [index] of a [WalletModal] hand to their
    handlers: the modal is open and its [addresses] prop is an array that
    long.  This is the handlers' view of a page that is on the screen;
    whether the component can put a state on the screen at all ([addresses]
    that is no array, an address that is an object) is [renders] below. *)
Definition rendered (c : Currency) (index : nat) (st : State) : option JSValue :=
  if isOpen c st then
    match addresses c st with
    | JArray items => nth_error items index
    | _ => None
    end
  else None.

(** The page between two events: the component's state, the clock in
    milliseconds, and the due times of the pending [setTimeout] callbacks
    (all of them [clear_copied]). *)
Record Page : Type := mkPage {
  session : State;
  now : Z;
  timers : list Z
}.

Definition start : Page := {| session := initial; now := 0%Z; timers := [] |}.

Inductive Action : Type :=
| TypeJson (s : string)
| ClickLoad
| ClickPay (c : Currency)
| ClickClose (c : Currency)
| ClickCopy (c : Currency) (index : nat) (clip : Clipboard)
| ClickConnect (c : Currency) (index : nat)
| Wait (d : Z).

Definition delays (effects : list Effect) : list Z :=
  flat_map (fun e => match e with SetTimeout d => [d] | _ => [] end) effects.

(** A handler ran: its timers are scheduled from the current time. *)
Definition handled (p : Page) (r : State * list Effect) : Page * list Effect :=
  ({| session := fst r;
      now := now p;
      timers := timers p ++ map (fun d => (now p + d)%Z) (delays (snd r)) |},
   snd r).

(** Time passes to [t]: the callbacks due by then run and are dropped. *)
Definition elapse (p : Page) (t : Z) : Page :=
  {| session :=
       fold_left (fun st _ => clear_copied st)
         (filter (fun due => (due <=? t)%Z) (timers p)) (session p);
     now := t;
     timers := filter (fun due => (t <? due)%Z) (timers p) |}.

(** One event, as far as its handler goes: the state the handler sets and
    what it emits.  Whether the page can then render that state is not
    decided here but by [renders]; [live_step] below puts the two together.
    [None] when the page offers no such event in this state (a
    disabled button, a modal that is not rendered) or when the handler throws.
    The two pay buttons are disabled while [paymentData.amount] is falsy.  An
    open modal's backdrop lies over the page but disables nothing under it:
    the buttons and the text area stay enabled and answer to the keyboard.
    A callback runs as soon as it is due. *)
Definition step (p : Page) (a : Action) : option (Page * list Effect) :=
  let st := session p in
  match a with
  | TypeJson s => Some (handled p (setJsonInput st s, []))
  | ClickLoad => Some (handled p (loadFromJSON st))
  | ClickPay c =>
      if truthy (amount (paymentData st))
      then Some (handled p (setShowModal c st true, []))
      else None
  | ClickClose c =>
      if isOpen c st then Some (handled p (setShowModal c st false, [])) else None
  | ClickCopy c index clip =>
      address <- rendered c index st ;;
      r <- copyToClipboard clip st address (copy_key c index) ;;
      Some (handled p r)
  | ClickConnect c index =>
      address <- rendered c index st ;;
      Some (handled p (onConnect c st address index))
  | Wait d =>
      if (d <? 0)%Z then None else Some (elapse p (now p + d)%Z, [])
  end.

Fixpoint run (p : Page) (actions : list Action) : option (Page * list Effect) :=
  match actions with
  | [] => Some (p, [])
  | a :: rest =>
      '(p1, e1) <- step p a ;;
      '(p2, e2) <- run p1 rest ;;
      Some (p2, e1 ++ e2)
  end.

Definition reachable (p : Page) : Prop :=
  exists actions effects, run start actions = Some (p, effects).

(** The "Copied!" mark of an address is shown. *)
Definition copied (c : Currency) (index : nat) (st : State) : bool :=
  (copiedAddress st =? copy_key c index)%string.

(** *** What the component can render

    After an event React renders the component again with the new state.  A
    value placed in the page as a child must be a string, a number, a boolean,
    [null] or an array of such: an object there makes the render throw, and
    with no error boundary the page is unmounted. *)
Fixpoint renderable (v : JSValue) : bool :=
  match v with
  | JObject _ => false
  | JArray items => forallb renderable items
  | JNull | JBool _ | JNumber _ _ | JString _ => true
  end.

(** The "Payment Details" card, shown while the amount is truthy: it places
    the amount, the denomination, the business name and (when truthy, the
    falsy values being renderable) the description. *)
Definition details_render (d : PaymentData) : bool :=
  if truthy (amount d) then
    renderable (amount d) && renderable (denomination d)
    && renderable (businessName d) && renderable (description d)
  else true.

(** A [WalletModal]: closed it returns [null]; open it places the amount, the
    business name and the description, calls [addresses.map], which only an
    array has, and places each address. *)
Definition modal_renders (c : Currency) (st : State) : bool :=
  if isOpen c st then
    renderable (amount (paymentData st))
    && renderable (businessName (paymentData st))
    && renderable (description (paymentData st))
    && match addresses c st with
       | JArray items => forallb renderable items
       | _ => false
       end
  else true.

(** The whole page renders. *)
Definition renders (st : State) : bool :=
  details_render (paymentData st) && modal_renders XLM st && modal_renders USDC st.

(** One event on the mounted page: the handler runs as in [step], then the
    page renders the new state; [None] also when that render throws and the
    page is gone. *)
Definition live_step (p : Page) (a : Action) : option (Page * list Effect) :=
  '(p', e) <- step p a ;;
  if renders (session p') then Some (p', e) else None.

Fixpoint live_run (p : Page) (actions : list Action) : option (Page * list Effect) :=
  match actions with
  | [] => Some (p, [])
  | a :: rest =>
      '(p1, e1) <- live_step p a ;;
      '(p2, e2) <- live_run p1 rest ;;
      Some (p2, e1 ++ e2)
  end.

End Platform0.

(** ** stellar-payment-platform-1.tsx *)

Module Platform1.

(** The three [useState] cells; nothing ever calls [setSelectedNetwork]. *)
Record State : Type := mkState {
  showXLMModal : bool;
  showUSDCModal : bool;
  selectedNetwork : option string
}.

Definition initial : State :=
  {| showXLMModal := false; showUSDCModal := false; selectedNetwork := None |}.

(** The address lists of the fixed [paymentData]. *)
Definition stellarAddresses : list string :=
  ["GCKFBEIYTKP5RDBZ7QVRHKK5GFTYUXD5WFJE3DFXDGF3HDVYGRRHIKMR";
   "GADTMGF3XDZXGQJZF7VQXHWSYKQRQ3VBKXMDGRQXFKWYLXZM4QKJHKFM";
   "GAKBPBDMKQRQXFKWYLXZM4QKJHKFMGADTMGF3XDZXGQJZF7VQXHWSYKQ"].

Definition usdcAddresses : list string :=
  ["0x742d35Cc6634C0532925a3b8D400a6ff5E3b0e4b";
   "0x8ba1f109551bD432803012645Hac136c22C3BA6";
   "0x1f9840a85d5aF5bf1D1762F925BDADdC4201F984"].

Definition handleXLMPayment (st : State) : State :=
  {| showXLMModal := true;
     showUSDCModal := showUSDCModal st;
     selectedNetwork := selectedNetwork st |}.

Definition handleUSDCPayment (st : State) : State :=
  {| showXLMModal := showXLMModal st;
     showUSDCModal := true;
     selectedNetwork := selectedNetwork st |}.

Definition closeXLM (st : State) : State :=
  {| showXLMModal := false;
     showUSDCModal := showUSDCModal st;
     selectedNetwork := selectedNetwork st |}.

Definition closeUSDC (st : State) : State :=
  {| showXLMModal := showXLMModal st;
     showUSDCModal := false;
     selectedNetwork := selectedNetwork st |}.

(** [address.slice(0, 8)] followed by the three dots. *)
Definition shortened (address : string) : string :=
  (substring 0 8 address ++ "...")%string.

(** What an [AddressButton] shows of its address: [address.slice(0, 12)],
    three dots, [address.slice(-8)]. *)
Definition abbreviated (address : string) : string :=
  (substring 0 12 address ++ "..."
   ++ substring (String.length address - 8) 8 address)%string.

Definition handleWalletConnect (st : State) (address network : string)
  : State * list Effect :=
  (st,
   [ConsoleLog [Lit ("Connecting to " ++ network ++ " wallet for address: " ++ address)];
    if (network =? "stellar")%string
    then Alert [Lit ("Connecting to Stellar Wallet Kit for address: " ++ shortened address)]
    else Alert [Lit ("Connecting to Web3 Wallet for address: " ++ shortened address)]]).

(** The page's events: the two pay buttons are always enabled; a modal's close
    button and its three [AddressButton]s exist while it is open. *)
Inductive Action : Type :=
| PayXLM
| PayUSDC
| CloseXLM
| CloseUSDC
| ConnectStellar (index : nat)
| ConnectEthereum (index : nat).

Definition step (st : State) (a : Action) : option (State * list Effect) :=
  match a with
  | PayXLM => Some (handleXLMPayment st, [])
  | PayUSDC => Some (handleUSDCPayment st, [])
  | CloseXLM => if showXLMModal st then Some (closeXLM st, []) else None
  | CloseUSDC => if showUSDCModal st then Some (closeUSDC st, []) else None
  | ConnectStellar index =>
      if showXLMModal st then
        address <- nth_error stellarAddresses index ;;
        Some (handleWalletConnect st address "stellar")
      else None
  | ConnectEthereum index =>
      if showUSDCModal st then
        address <- nth_error usdcAddresses index ;;
        Some (handleWalletConnect st address "ethereum")
      else None
  end.

Fixpoint run (st : State) (actions : list Action) : option (State * list Effect) :=
  match actions with
  | [] => Some (st, [])
  | a :: rest =>
      '(st1, e1) <- step st a ;;
      '(st2, e2) <- run st1 rest ;;
      Some (st2, e1 ++ e2)
  end.

End Platform1.

(** ** Sample inputs *)

Import Platform0.

(** The request of the specification's end-to-end example. *)
Definition request_150 : string :=
  text "{'amount': 150, 'denomination': 'USD', 'xlmAddresses': ['GABC'], 'usdcAddresses': []}".

Definition request_three_addresses : string :=
  text "{'amount': '100', 'xlmAddresses': ['GABC', '', 'GHIJ'], 'denomination': 'USD', 'businessName': 'Example Store'}".

Definition request_negative_amount : string :=
  text "{'amount': -5, 'denomination': 'USD'}".

Definition request_without_amount : string :=
  text "{'businessName': 'Example Store'}".

Definition request_without_lists : string :=
  text "{'amount': 100, 'denomination': 'USD'}".

Definition not_json : string := "{not json".

Definition loaded (input : string) : State := fst (loadFromJSON (setJsonInput initial input)).

(** The page after [request_three_addresses] was loaded and the XLM modal opened. *)
Definition xlm_modal_page : Page :=
  {| session := setShowXLMModal (loaded request_three_addresses) true;
     now := 0%Z;
     timers := [] |}.

(** An input field after defaulting: the field when the record has it, the
    default when it does not. *)
Definition defaulted (field : option JSValue) (default : JSValue) : JSValue :=
  match field with
  | Some v => v
  | None => default
  end.

(** A field a well-formed request may leave out, and that holds a string when
    it is there. *)
Definition optional_string (field : option JSValue) : Prop :=
  field = None \/ exists s, field = Some (JString s).

(** The same for a list of addresses. *)
Definition optional_list (field : option JSValue) : Prop :=
  field = None \/ exists items, field = Some (JArray items).

(** An amount above zero: a number, or (as in the page's own placeholder,
    [{"amount": "100", ...}]) a string that is the numeral of one. *)
Definition positive_amount (a : JSValue) : Prop :=
  match a with
  | JNumber m _ => (0 < m)%Z
  | JString s =>
      exists m e, parse_number s = Some (JNumber m e, EmptyString) /\ (0 < m)%Z
  | _ => False
  end.

Definition other (c : Currency) : Currency :=
  match c with XLM => USDC | USDC => XLM end.

(** The key of a network's address list in the request. *)
Definition list_key (c : Currency) : string :=
  match c with XLM => "xlmAddresses" | USDC => "usdcAddresses" end.

(** The keys [loadFromJSON] reads. *)
Definition loader_keys : list string :=
  ["amount"; "xlmAddresses"; "usdcAddresses"; "denomination"; "businessName";
   "description"].

(** The page before any request was loaded: the blank payment data, both
    modals closed, nothing copied, no timer pending. *)
Definition locked (p : Page) : Prop :=
  paymentData (session p) = paymentData initial
  /\ showXLMModal (session p) = false
  /\ showUSDCModal (session p) = false
  /\ copiedAddress (session p) = EmptyString
  /\ timers p = [].

(** Every pending timer is due within the next two seconds, and a copied mark
    that is set has a timer pending. *)
Definition timers_pending (p : Page) : Prop :=
  Forall (fun due => (now p < due <= now p + 2000)%Z) (timers p)
  /\ (copiedAddress (session p) <> EmptyString -> timers p <> []).

(** The stored amount is the empty string or a truthy value. *)
Definition amount_stored (st : State) : Prop :=
  amount (paymentData st) = blank \/ truthy (amount (paymentData st)) = true.

Definition request_with_order_id : string :=
  text "{'orderId': 'ORD-2025-001', 'amount': 150, 'customerName': 'John Doe', 'denomination': 'USD', 'xlmAddresses': ['GABC'], 'usdcAddresses': []}".

(** The page 1500 ms after address 0 of the XLM modal was copied. *)
Definition copied_page : Page :=
  {| session := setCopiedAddress (session xlm_modal_page) "XLM-0";
     now := 1500%Z;
     timers := [2000%Z] |}.

(** The events that leave the payment data, the input text, the modal flags
    alone. *)
Definition keeps_payment_data (a : Action) : bool :=
  match a with ClickLoad => false | _ => true end.

Definition keeps_input (a : Action) : bool :=
  match a with TypeJson _ => false | _ => true end.

Definition keeps_modals (a : Action) : bool :=
  match a with ClickPay _ | ClickClose _ => false | _ => true end.

Definition keeps_mark (a : Action) : bool :=
  match a with ClickCopy _ _ _ | Wait _ => false | _ => true end.

Ltac frame_case := repeat split; intros; repeat split; easy.

(** [data.key] on a value that is not [null]: the member, or [undefined]. *)
Definition field (data : JSValue) (key : string) : option JSValue :=
  match member data key with
  | Some v => v
  | None => None
  end.

(** Both modals open. *)
Definition open_both (st : State) : State :=
  setShowUSDCModal (setShowXLMModal st true) true.

(** A page at time 0 with no timer pending. *)
Definition page_of (st : State) : Page :=
  {| session := st; now := 0%Z; timers := [] |}.

Definition request_with_string_list : string :=
  text "{'amount': 1, 'xlmAddresses': 'GABC'}".

Definition request_with_object_amount : string :=
  text "{'amount': {'v': 1}}".

Definition request_with_object_address : string :=
  text "{'amount': 1, 'xlmAddresses': [{'a': 1}]}".

(** ** The parser and its fuel *)

Lemma skip_ws_length (s : string) :
  String.length (skip_ws s) <= String.length s.
Proof.
  induction s as [|c r IH]; simpl; [lia|].
  destruct (is_ws c); simpl; lia.
Qed.

Lemma digits_length (s : string) (acc n v k : Z) (r : string) :
  digits acc n s = (v, k, r) -> String.length r <= String.length s.
Proof.
  revert acc n. induction s as [|c s IH]; simpl; intros acc n H.
  - inversion H; subst; simpl; lia.
  - destruct (digit_val c).
    + apply IH in H. lia.
    + inversion H; subst; simpl; lia.
Qed.

Lemma some_digits_length (acc : Z) (s : string) (v k : Z) (r : string) :
  some_digits acc s = Some (v, k, r) -> String.length r <= String.length s.
Proof.
  unfold some_digits. destruct (digits acc 0 s) as [[v' k'] r'] eqn:E.
  destruct (k' =? 0)%Z; [discriminate|].
  intros H; inversion H; subst. exact (digits_length _ _ _ _ _ _ E).
Qed.

Lemma exponent_length (s : string) (e : Z) (r : string) :
  exponent s = Some (e, r) -> String.length r <= String.length s.
Proof.
  unfold exponent. destruct s as [|c s']; [intros H; inversion H; simpl; lia|].
  destruct ((c =? "e")%char || (c =? "E")%char);
    [|intros H; inversion H; simpl; lia].
  set (signed := match s' with
                 | String c1 r' =>
                     if (c1 =? "+")%char then (1%Z, r')
                     else if (c1 =? "-")%char then ((-1)%Z, r')
                     else (1%Z, s')
                 | EmptyString => (1%Z, s')
                 end).
  assert (L : String.length (snd signed) <= String.length s').
  { unfold signed. destruct s' as [|c1 r']; simpl; [lia|].
    destruct (c1 =? "+")%char; [simpl; lia|].
    destruct (c1 =? "-")%char; simpl; lia. }
  destruct signed as [sign r1]. simpl in L.
  destruct (some_digits 0 r1) as [[[v k] r2]|] eqn:E; simpl; [|discriminate].
  intros H; inversion H; subst. apply some_digits_length in E. simpl. lia.
Qed.

Lemma parse_number_length (s : string) (v : JSValue) (r : string) :
  parse_number s = Some (v, r) -> String.length r <= String.length s.
Proof.
  unfold parse_number.
  set (signed := match s with
                 | String c r0 => if (c =? "-")%char then (true, r0) else (false, s)
                 | EmptyString => (false, s)
                 end).
  assert (L : String.length (snd signed) <= String.length s).
  { unfold signed. destruct s as [|c r0]; simpl; [lia|].
    destruct (c =? "-")%char; simpl; lia. }
  destruct signed as [neg s1]. simpl in L.
  destruct s1 as [|c r0]; [discriminate|].
  destruct (digit_val c) as [d|]; simpl; [|discriminate].
  set (whole := if (d =? 0)%Z then (0%Z, r0)
                else let '(v0, _, r') := digits d 1 r0 in (v0, r')).
  assert (L2 : String.length (snd whole) <= String.length r0).
  { unfold whole. destruct (d =? 0)%Z; simpl; [lia|].
    destruct (digits d 1 r0) as [[v0 k0] r'] eqn:E. simpl.
    exact (digits_length _ _ _ _ _ _ E). }
  destruct whole as [int_part s2]. simpl in L2.
  set (fraction := match s2 with
                   | String c2 r2 =>
                       if (c2 =? ".")%char then some_digits int_part r2
                       else Some (int_part, 0%Z, s2)
                   | EmptyString => Some (int_part, 0%Z, s2)
                   end).
  assert (L3 : forall m k s3, fraction = Some (m, k, s3) ->
                              String.length s3 <= String.length s2).
  { unfold fraction. intros m k s3. destruct s2 as [|c2 r2].
    - intros H; inversion H; simpl; lia.
    - destruct (c2 =? ".")%char.
      + intros H. apply some_digits_length in H. simpl. lia.
      + intros H; inversion H; simpl; lia. }
  destruct fraction as [[[m k] s3]|]; simpl; [|discriminate].
  specialize (L3 _ _ _ eq_refl).
  destruct (exponent s3) as [[e s4]|] eqn:E; simpl; [|discriminate].
  apply exponent_length in E.
  intros H; inversion H; subst. simpl in *. lia.
Qed.

Lemma string_body_length (s t r : string) :
  string_body s = Some (t, r) -> String.length r <= String.length s.
Proof.
  remember (String.length s) as n eqn:N.
  assert (B : String.length s <= n) by lia. clear N.
  revert s t r B. induction n as [|n IH]; intros s t r B.
  - destruct s; [discriminate|simpl in B; lia].
  - destruct s as [|c s1]; [discriminate|]. simpl in B. simpl.
    destruct (c =? dquote)%char; [intros H; inversion H; subst; lia|].
    destruct (c =? backslash)%char.
    + destruct s1 as [|e s2]; [discriminate|]. simpl in B.
      destruct (e =? "u")%char.
      * destruct s2 as [|h3 [|h2 [|h1 [|h0 s6]]]]; try discriminate. simpl in B.
        destruct (hex4 h3 h2 h1 h0) as [unit|]; cbn [bind]; [|discriminate].
        assert (A : forall t0 r0,
                   ('(t', rest) <- string_body s6 ;;
                    Some ((utf8 unit ++ t')%string, rest)) = Some (t0, r0) ->
                   String.length r0 <= S n).
        { intros t0 r0.
          destruct (string_body s6) as [[t' r']|] eqn:E; cbn [bind]; [|discriminate].
          intros H; inversion H; subst. apply IH in E; lia. }
        destruct s6 as [|b [|u [|l3 [|l2 [|l1 [|l0 s12]]]]]]; try apply A.
        destruct (low_escape unit b u l3 l2 l1 l0); [|apply A].
        destruct (string_body s12) as [[t' r']|] eqn:E; cbn [bind]; [|discriminate].
        intros H; inversion H; subst. apply IH in E; simpl in *; lia.
      * destruct (simple_escape e); simpl; [|discriminate].
        destruct (string_body s2) as [[t' r']|] eqn:E; simpl; [|discriminate].
        intros H; inversion H; subst. apply IH in E; simpl; lia.
    + destruct (code c <? 32)%Z; [discriminate|].
      destruct (string_body s1) as [[t' r']|] eqn:E; simpl; [|discriminate].
      intros H; inversion H; subst. apply IH in E; simpl; lia.
Qed.

Lemma strip_prefix_length (w s r : string) :
  strip_prefix w s = Some r -> String.length r <= String.length s.
Proof.
  revert s. induction w as [|a w IH]; intros s; simpl.
  - intros H; inversion H; lia.
  - destruct s as [|b s']; [discriminate|].
    destruct (a =? b)%char; [|discriminate].
    intros H. apply IH in H. simpl. lia.
Qed.

Lemma keyword_length (w : string) (v v' : JSValue) (s r : string) :
  keyword w v s = Some (v', r) -> String.length r <= String.length s.
Proof.
  unfold keyword. destruct (strip_prefix w s) as [r'|] eqn:E; simpl; [|discriminate].
  intros H; inversion H; subst. exact (strip_prefix_length _ _ _ E).
Qed.

(** What a parser returns as the rest of the text is no longer than the text. *)
Lemma parse_value_length (fuel : nat) :
  (forall s v r, parse_value fuel s = Some (v, r) ->
                 String.length r <= String.length s)
  /\ (forall s acc v r, parse_elements fuel s acc = Some (v, r) ->
                        String.length r <= String.length s)
  /\ (forall s acc v r, parse_members fuel s acc = Some (v, r) ->
                        String.length r <= String.length s).
Proof.
  induction fuel as [|f (IHv & IHe & IHm)]; [repeat split; discriminate|].
  split; [|split].
  - intros s v r. simpl. pose proof (skip_ws_length s) as W.
    destruct (skip_ws s) as [|c s1]; [discriminate|]. simpl in W.
    destruct (c =? "{")%char.
    { pose proof (skip_ws_length s1) as W1.
      destruct (skip_ws s1) as [|c1 r1]; [discriminate|]. simpl in W1.
      destruct (c1 =? "}")%char; [intros H; inversion H; subst; lia|].
      intros H. apply IHm in H. lia. }
    destruct (c =? "[")%char.
    { pose proof (skip_ws_length s1) as W1.
      destruct (skip_ws s1) as [|c1 r1]; [discriminate|]. simpl in W1.
      destruct (c1 =? "]")%char; [intros H; inversion H; subst; lia|].
      intros H. apply IHe in H. lia. }
    destruct (c =? dquote)%char.
    { destruct (string_body s1) as [[t r']|] eqn:E; simpl; [|discriminate].
      apply string_body_length in E. intros H; inversion H; subst. lia. }
    destruct (c =? "t")%char; [intros H; apply keyword_length in H; simpl in H; lia|].
    destruct (c =? "f")%char; [intros H; apply keyword_length in H; simpl in H; lia|].
    destruct (c =? "n")%char; [intros H; apply keyword_length in H; simpl in H; lia|].
    intros H; apply parse_number_length in H; simpl in H; lia.
  - intros s acc v r. simpl.
    destruct (parse_value f s) as [[v1 r1]|] eqn:E; simpl; [|discriminate].
    apply IHv in E. pose proof (skip_ws_length r1) as W.
    destruct (skip_ws r1) as [|c r2]; [discriminate|]. simpl in W.
    destruct (c =? ",")%char; [intros H; apply IHe in H; lia|].
    destruct (c =? "]")%char; [|discriminate].
    intros H; inversion H; subst; lia.
  - intros s acc v r. simpl. pose proof (skip_ws_length s) as W.
    destruct (skip_ws s) as [|c s1]; [discriminate|]. simpl in W.
    destruct (c =? dquote)%char; [|discriminate].
    destruct (string_body s1) as [[k r1]|] eqn:E; simpl; [|discriminate].
    apply string_body_length in E. pose proof (skip_ws_length r1) as W1.
    destruct (skip_ws r1) as [|c1 r2]; [discriminate|]. simpl in W1.
    destruct (c1 =? ":")%char; [|discriminate].
    destruct (parse_value f r2) as [[v1 r3]|] eqn:E1; simpl; [|discriminate].
    apply IHv in E1. pose proof (skip_ws_length r3) as W3.
    destruct (skip_ws r3) as [|c3 r4]; [discriminate|]. simpl in W3.
    destruct (c3 =? ",")%char; [intros H; apply IHm in H; lia|].
    destruct (c3 =? "}")%char; [|discriminate].
    intros H; inversion H; subst; lia.
Qed.

(** Past two units for each character (and one more), more fuel changes
    nothing: a [None] from [parse] is a syntax error, never a lack of fuel. *)
Lemma parse_value_fuel (f : nat) :
  (forall s f', 2 * String.length s + 1 <= f -> f <= f' ->
                parse_value f' s = parse_value f s)
  /\ (forall s acc f', 2 * String.length s + 2 <= f -> f <= f' ->
                       parse_elements f' s acc = parse_elements f s acc)
  /\ (forall s acc f', 2 * String.length s + 2 <= f -> f <= f' ->
                       parse_members f' s acc = parse_members f s acc).
Proof.
  induction f as [|f (IHv & IHe & IHm)]; [repeat split; intros; lia|].
  split; [|split].
  - intros s [|f'] B F; [lia|]. simpl. pose proof (skip_ws_length s) as W.
    destruct (skip_ws s) as [|c s1]; [reflexivity|]. simpl in W.
    destruct (c =? "{")%char.
    { destruct (skip_ws s1) as [|c1 r1]; [reflexivity|].
      destruct (c1 =? "}")%char; [reflexivity|]. apply IHm; lia. }
    destruct (c =? "[")%char.
    { destruct (skip_ws s1) as [|c1 r1]; [reflexivity|].
      destruct (c1 =? "]")%char; [reflexivity|]. apply IHe; lia. }
    reflexivity.
  - intros s acc [|f'] B F; [lia|]. simpl. rewrite (IHv s f') by lia.
    destruct (parse_value f s) as [[v1 r1]|] eqn:E; simpl; [|reflexivity].
    apply (proj1 (parse_value_length f)) in E. pose proof (skip_ws_length r1) as W.
    destruct (skip_ws r1) as [|c r2]; [reflexivity|]. simpl in W.
    destruct (c =? ",")%char; [|reflexivity]. apply IHe; lia.
  - intros s acc [|f'] B F; [lia|]. simpl. pose proof (skip_ws_length s) as W.
    destruct (skip_ws s) as [|c s1]; [reflexivity|]. simpl in W.
    destruct (c =? dquote)%char; [|reflexivity].
    destruct (string_body s1) as [[k r1]|] eqn:E; simpl; [|reflexivity].
    apply string_body_length in E. pose proof (skip_ws_length r1) as W1.
    destruct (skip_ws r1) as [|c1 r2]; [reflexivity|]. simpl in W1.
    destruct (c1 =? ":")%char; [|reflexivity].
    rewrite (IHv r2 f') by lia.
    destruct (parse_value f r2) as [[v1 r3]|] eqn:E1; simpl; [|reflexivity].
    apply (proj1 (parse_value_length f)) in E1. pose proof (skip_ws_length r3) as W3.
    destruct (skip_ws r3) as [|c3 r4]; [reflexivity|]. simpl in W3.
    destruct (c3 =? ",")%char; [|reflexivity]. apply IHm; lia.
Qed.

Theorem parse_fuel_irrelevant (text : string) (fuel : nat) :
  2 * String.length text + 2 <= fuel ->
  parse_value fuel text = parse_value (2 * String.length text + 2) text.
Proof.
  intros H. apply (proj1 (parse_value_fuel (2 * String.length text + 2))); lia.
Qed.

(** ** Properties of the loader *)

Lemma parsed_payment_object (input : string) (members : list (string * JSValue)) :
  JSON.parse input = Some (JObject members) ->
  parsed_payment input =
    Some {| amount := or_else (own members "amount") blank;
            xlmAddresses := or_else (own members "xlmAddresses") three_blank;
            usdcAddresses := or_else (own members "usdcAddresses") three_blank;
            denomination := or_else (own members "denomination") blank;
            businessName := or_else (own members "businessName") blank;
            description := or_else (own members "description") blank |}.
Proof.
  intros H. unfold parsed_payment. rewrite H. reflexivity.
Qed.

Lemma loadFromJSON_object (st : State) (members : list (string * JSValue)) :
  JSON.parse (jsonInput st) = Some (JObject members) ->
  loadFromJSON st =
    (setPaymentData st
       {| amount := or_else (own members "amount") blank;
          xlmAddresses := or_else (own members "xlmAddresses") three_blank;
          usdcAddresses := or_else (own members "usdcAddresses") three_blank;
          denomination := or_else (own members "denomination") blank;
          businessName := or_else (own members "businessName") blank;
          description := or_else (own members "description") blank |},
     []).
Proof.
  intros H. unfold loadFromJSON. rewrite (parsed_payment_object _ _ H). reflexivity.
Qed.

(** A text that parses to anything but [null] is loaded: every field the value
    lacks takes its default. *)
Lemma parsed_payment_some (input : string) (data : JSValue) :
  JSON.parse input = Some data -> data <> JNull ->
  exists d, parsed_payment input = Some d.
Proof.
  intros H Hn. unfold parsed_payment. rewrite H.
  destruct data; try contradiction; simpl; eexists; reflexivity.
Qed.

Lemma parsed_payment_none (input : string) :
  parsed_payment input = None <->
  JSON.parse input = None \/ JSON.parse input = Some JNull.
Proof.
  split.
  - intros H. destruct (JSON.parse input) as [data|] eqn:E; [|now left].
    destruct data; try (now right);
      (destruct (parsed_payment_some input _ E) as [d Hd]; [discriminate|congruence]).
  - unfold parsed_payment. intros [H|H]; rewrite H; reflexivity.
Qed.

Lemma truthy_nonzero (m e : Z) : (m <> 0)%Z -> truthy (JNumber m e) = true.
Proof.
  intros H. simpl. destruct (Z.eqb_spec m 0); [contradiction|reflexivity].
Qed.

Lemma truthy_positive (a : JSValue) : positive_amount a -> truthy a = true.
Proof.
  destruct a as [| |m e|s| |]; simpl; try contradiction.
  - intros H. destruct (Z.eqb_spec m 0); [lia|reflexivity].
  - intros (m & e & H & _). destruct s; [discriminate|reflexivity].
Qed.

Lemma or_else_string (field : option JSValue) :
  optional_string field -> or_else field blank = defaulted field blank.
Proof.
  intros [->|[s ->]]; [reflexivity|]. destruct s; reflexivity.
Qed.

Lemma or_else_list (field : option JSValue) (default : JSValue) :
  optional_list field -> or_else field default = defaulted field default.
Proof.
  intros [->|[items ->]]; reflexivity.
Qed.

(** C1 (counterexample).  A request whose amount is -5 is loaded without any
    error and its amount is stored; a request with no amount, loaded over the
    150 USD request, is accepted too and replaces the payment data. *)
Lemma C1_bad_amount_is_loaded :
  loadFromJSON (setJsonInput initial request_negative_amount) =
    (setPaymentData (setJsonInput initial request_negative_amount)
       {| amount := JNumber (-5) 0;
          xlmAddresses := three_blank;
          usdcAddresses := three_blank;
          denomination := JString "USD";
          businessName := blank;
          description := blank |},
     [])
  /\ snd (loadFromJSON (setJsonInput (loaded request_150) request_without_amount)) = []
  /\ paymentData (fst (loadFromJSON (setJsonInput (loaded request_150) request_without_amount)))
     <> paymentData (loaded request_150).
Proof.
  repeat split; try (vm_compute; reflexivity).
  vm_compute. discriminate.
Qed.

(** C1 (amended).  The loader does not validate the amount.  For every input
    that parses to a record, the load raises no error and replaces the payment
    data; the stored amount is the empty string when the record has no amount
    or the number zero, and the number itself when it is any other number,
    a negative one included.  A missing denomination is stored as the empty
    string. *)
Theorem C1_amount_defaulted_not_validated
    (st : State) (members : list (string * JSValue)) :
  JSON.parse (jsonInput st) = Some (JObject members) ->
  snd (loadFromJSON st) = []
  /\ (exists d, fst (loadFromJSON st) = setPaymentData st d)
  /\ (own members "amount" = None ->
      amount (paymentData (fst (loadFromJSON st))) = blank)
  /\ (forall m e, own members "amount" = Some (JNumber m e) ->
      amount (paymentData (fst (loadFromJSON st))) =
        if (m =? 0)%Z then blank else JNumber m e)
  /\ (own members "denomination" = None ->
      denomination (paymentData (fst (loadFromJSON st))) = blank).
Proof.
  intros H. rewrite (loadFromJSON_object _ _ H). simpl.
  repeat split.
  - eexists; reflexivity.
  - intros ->. reflexivity.
  - intros m e ->. simpl. destruct (m =? 0)%Z; reflexivity.
  - intros ->. reflexivity.
Qed.

(** C1 at the request with amount -5. *)
Lemma C1_amount_defaulted_witness :
  JSON.parse (jsonInput (setJsonInput initial request_negative_amount)) =
    Some (JObject [("amount", JNumber (-5) 0); ("denomination", JString "USD")])
  /\ snd (loadFromJSON (setJsonInput initial request_negative_amount)) = []
  /\ amount (paymentData (loaded request_negative_amount)) = JNumber (-5) 0.
Proof.
  assert (P : JSON.parse (jsonInput (setJsonInput initial request_negative_amount)) =
              Some (JObject [("amount", JNumber (-5) 0); ("denomination", JString "USD")]))
    by (vm_compute; reflexivity).
  split; [exact P|].
  destruct (C1_amount_defaulted_not_validated _ _ P) as (E & _ & _ & A & _).
  split; [exact E|].
  exact (A (-5)%Z 0%Z eq_refl).
Defined.

(** C5 (counterexample).  The text [42] is not a record, yet loading it over
    the 150 USD request raises no error and replaces the payment data with
    the defaults. *)
Lemma C5_number_is_loaded :
  JSON.parse "42" = Some (JNumber 42 0)
  /\ loadFromJSON (setJsonInput (loaded request_150) "42") =
       (setPaymentData (setJsonInput (loaded request_150) "42") (paymentData initial), [])
  /\ paymentData initial <> paymentData (loaded request_150).
Proof.
  repeat split; try (vm_compute; reflexivity).
  vm_compute. discriminate.
Qed.

(** C5 (amended).  The load fails exactly when [JSON.parse] rejects the text
    or returns [null]: it then shows "Invalid JSON format", builds no payment
    data and leaves the whole state as it was.  Any other parsed value, record
    or not, is loaded without an error: each field is the value's member when
    that is truthy, and each field the value lacks takes its default, the
    empty string or the three empty address slots. *)
Theorem C5_load_fails_on_syntax_error_or_null (st : State) :
  (JSON.parse (jsonInput st) = None \/ JSON.parse (jsonInput st) = Some JNull ->
   loadFromJSON st = (st, [invalid_json]))
  /\ (forall data, JSON.parse (jsonInput st) = Some data -> data <> JNull ->
      (exists d, loadFromJSON st = (setPaymentData st d, []))
      /\ snd (loadFromJSON st) = []
      /\ paymentData (fst (loadFromJSON st)) =
          {| amount := or_else (field data "amount") (JString EmptyString);
             xlmAddresses :=
               or_else (field data "xlmAddresses")
                 (JArray [JString EmptyString; JString EmptyString; JString EmptyString]);
             usdcAddresses :=
               or_else (field data "usdcAddresses")
                 (JArray [JString EmptyString; JString EmptyString; JString EmptyString]);
             denomination := or_else (field data "denomination") (JString EmptyString);
             businessName := or_else (field data "businessName") (JString EmptyString);
             description := or_else (field data "description") (JString EmptyString) |}
      /\ (field data "amount" = None ->
          amount (paymentData (fst (loadFromJSON st))) = JString EmptyString)
      /\ (field data "xlmAddresses" = None ->
          xlmAddresses (paymentData (fst (loadFromJSON st))) =
            JArray [JString EmptyString; JString EmptyString; JString EmptyString])
      /\ (field data "usdcAddresses" = None ->
          usdcAddresses (paymentData (fst (loadFromJSON st))) =
            JArray [JString EmptyString; JString EmptyString; JString EmptyString])
      /\ (field data "denomination" = None ->
          denomination (paymentData (fst (loadFromJSON st))) = JString EmptyString)
      /\ (field data "businessName" = None ->
          businessName (paymentData (fst (loadFromJSON st))) = JString EmptyString)
      /\ (field data "description" = None ->
          description (paymentData (fst (loadFromJSON st))) = JString EmptyString)
      /\ ((forall members, data <> JObject members) ->
          paymentData (fst (loadFromJSON st)) = paymentData initial)).
Proof.
  split.
  - intros H. apply parsed_payment_none in H. unfold loadFromJSON. rewrite H.
    reflexivity.
  - intros data H Hn.
    assert (E : parsed_payment (jsonInput st) =
                Some {| amount := or_else (field data "amount") blank;
                        xlmAddresses := or_else (field data "xlmAddresses") three_blank;
                        usdcAddresses := or_else (field data "usdcAddresses") three_blank;
                        denomination := or_else (field data "denomination") blank;
                        businessName := or_else (field data "businessName") blank;
                        description := or_else (field data "description") blank |}).
    { unfold parsed_payment. rewrite H. destruct data; try contradiction; reflexivity. }
    unfold loadFromJSON. rewrite E. cbn [fst snd paymentData setPaymentData].
    split; [eexists; reflexivity|]. split; [reflexivity|]. split; [reflexivity|].
    cbn [amount xlmAddresses usdcAddresses denomination businessName description].
    repeat split; try (intros ->; reflexivity).
    intros Hobj. destruct data; try reflexivity.
    exfalso. exact (Hobj _ eq_refl).
Qed.

(** C5 at the text [{not json], typed over the loaded 150 USD request. *)
Lemma C5_load_fails_witness :
  JSON.parse (jsonInput (setJsonInput (loaded request_150) not_json)) = None
  /\ loadFromJSON (setJsonInput (loaded request_150) not_json) =
       (setJsonInput (loaded request_150) not_json, [invalid_json]).
Proof.
  assert (P : JSON.parse (jsonInput (setJsonInput (loaded request_150) not_json)) = None)
    by (vm_compute; reflexivity).
  split; [exact P|].
  exact (proj1 (C5_load_fails_on_syntax_error_or_null _) (or_introl P)).
Defined.

(** C6 (counterexample).  The request [{"amount": 100, "denomination":
    "USD"}] has an amount above zero and a non-empty denomination and is
    loaded without an error, but its two address lists, absent from the
    input, are not the empty sequence an absent list defaults to: each is
    stored as three empty-string slots. *)
Lemma C6_absent_lists_are_not_empty :
  JSON.parse request_without_lists =
    Some (JObject [("amount", JNumber 100 0); ("denomination", JString "USD")])
  /\ positive_amount (JNumber 100 0)
  /\ snd (loadFromJSON (setJsonInput initial request_without_lists)) = []
  /\ xlmAddresses (paymentData (loaded request_without_lists)) <>
       defaulted (own [("amount", JNumber 100 0); ("denomination", JString "USD")]
                    "xlmAddresses") (JArray [])
  /\ usdcAddresses (paymentData (loaded request_without_lists)) <>
       defaulted (own [("amount", JNumber 100 0); ("denomination", JString "USD")]
                    "usdcAddresses") (JArray []).
Proof.
  split; [vm_compute; reflexivity|]. split; [cbn; lia|].
  split; [vm_compute; reflexivity|]. split; vm_compute; discriminate.
Qed.

(** C6 (amended).  For every input that parses to a record whose amount is
    above zero and whose denomination is a non-empty string (the optional
    business name and description being strings when present, the address
    lists arrays when present), the load succeeds: it raises no error, and
    the payment data stored in the state afterwards holds, field by field, the
    input's field, the business name and the description being the empty
    string when the input has none and an address list being three
    empty-string slots when the input has none; the other cells of the state
    are those of before. *)
Theorem C6_valid_request_is_loaded
    (st : State) (members : list (string * JSValue)) (a : JSValue) (d : string) :
  JSON.parse (jsonInput st) = Some (JObject members) ->
  own members "amount" = Some a -> positive_amount a ->
  own members "denomination" = Some (JString d) -> d <> EmptyString ->
  optional_string (own members "businessName") ->
  optional_string (own members "description") ->
  optional_list (own members "xlmAddresses") ->
  optional_list (own members "usdcAddresses") ->
  snd (loadFromJSON st) = []
  /\ paymentData (fst (loadFromJSON st)) =
       {| amount := a;
          xlmAddresses :=
            defaulted (own members "xlmAddresses")
              (JArray [JString EmptyString; JString EmptyString; JString EmptyString]);
          usdcAddresses :=
            defaulted (own members "usdcAddresses")
              (JArray [JString EmptyString; JString EmptyString; JString EmptyString]);
          denomination := JString d;
          businessName := defaulted (own members "businessName") (JString EmptyString);
          description := defaulted (own members "description") (JString EmptyString) |}
  /\ showXLMModal (fst (loadFromJSON st)) = showXLMModal st
  /\ showUSDCModal (fst (loadFromJSON st)) = showUSDCModal st
  /\ copiedAddress (fst (loadFromJSON st)) = copiedAddress st
  /\ jsonInput (fst (loadFromJSON st)) = jsonInput st.
Proof.
  intros P Ha Hpos Hd Hne Hb Ht Hx Hu.
  rewrite (loadFromJSON_object _ _ P).
  rewrite (or_else_string _ Hb), (or_else_string _ Ht).
  rewrite (or_else_list _ _ Hx), (or_else_list _ _ Hu).
  rewrite Ha, Hd. unfold or_else.
  rewrite (truthy_positive _ Hpos).
  destruct d; [contradiction|]. repeat split.
Qed.

(** C6 at the 150 USD request. *)
Lemma C6_valid_request_witness :
  paymentData (loaded request_150) =
    {| amount := JNumber 150 0;
       xlmAddresses := JArray [JString "GABC"];
       usdcAddresses := JArray [];
       denomination := JString "USD";
       businessName := JString EmptyString;
       description := JString EmptyString |}.
Proof.
  refine (proj1 (proj2 (C6_valid_request_is_loaded (setJsonInput initial request_150)
           [("amount", JNumber 150 0); ("denomination", JString "USD");
            ("xlmAddresses", JArray [JString "GABC"]); ("usdcAddresses", JArray [])]
           (JNumber 150 0) "USD" _ _ _ _ _ _ _ _ _))).
  - vm_compute; reflexivity.
  - reflexivity.
  - simpl; lia.
  - reflexivity.
  - discriminate.
  - left; reflexivity.
  - left; reflexivity.
  - right; eexists; reflexivity.
  - right; eexists; reflexivity.
Defined.

(** The page's own placeholder amount, the string "100", is above zero and is
    stored as the string it is. *)
Example string_amount_is_loaded :
  positive_amount (JString "100")
  /\ amount (paymentData (loaded request_three_addresses)) = JString "100".
Proof.
  split; [|vm_compute; reflexivity].
  exists 100%Z, 0%Z. split; [vm_compute; reflexivity|lia].
Qed.

(** C7 (counterexample).  A request with neither address list is loaded
    with three blank slots for each network, not with an empty sequence. *)
Lemma C7_absent_list_gives_three_blanks :
  JSON.parse request_without_lists =
    Some (JObject [("amount", JNumber 100 0); ("denomination", JString "USD")])
  /\ snd (loadFromJSON (setJsonInput initial request_without_lists)) = []
  /\ xlmAddresses (paymentData (loaded request_without_lists)) =
       JArray [JString EmptyString; JString EmptyString; JString EmptyString]
  /\ usdcAddresses (paymentData (loaded request_without_lists)) =
       JArray [JString EmptyString; JString EmptyString; JString EmptyString]
  /\ xlmAddresses (paymentData (loaded request_without_lists)) <> JArray [].
Proof.
  repeat split; try (vm_compute; reflexivity).
  vm_compute. discriminate.
Qed.

(** C7 (amended).  For every input that parses to a record, a network's
    address list that is absent is loaded as three empty-string slots; a list
    that is present is stored as it is, empty strings and the empty list
    included, so order and numbering are those of the input. *)
Theorem C7_address_lists
    (st : State) (members : list (string * JSValue)) :
  JSON.parse (jsonInput st) = Some (JObject members) ->
  (own members "xlmAddresses" = None ->
   xlmAddresses (paymentData (fst (loadFromJSON st))) = three_blank)
  /\ (own members "usdcAddresses" = None ->
      usdcAddresses (paymentData (fst (loadFromJSON st))) = three_blank)
  /\ (forall items, own members "xlmAddresses" = Some (JArray items) ->
      xlmAddresses (paymentData (fst (loadFromJSON st))) = JArray items)
  /\ (forall items, own members "usdcAddresses" = Some (JArray items) ->
      usdcAddresses (paymentData (fst (loadFromJSON st))) = JArray items).
Proof.
  intros P. rewrite (loadFromJSON_object _ _ P). simpl.
  repeat split; intros; match goal with H : own _ _ = _ |- _ => rewrite H end;
    reflexivity.
Qed.

(** C7 at a request with three XLM addresses, the second one blank, and no USDC list. *)
Lemma C7_address_lists_witness :
  xlmAddresses (paymentData (loaded request_three_addresses)) =
    JArray [JString "GABC"; JString EmptyString; JString "GHIJ"]
  /\ usdcAddresses (paymentData (loaded request_three_addresses)) = three_blank.
Proof.
  assert (P : JSON.parse (jsonInput (setJsonInput initial request_three_addresses)) =
              Some (JObject [("amount", JString "100");
                             ("xlmAddresses",
                              JArray [JString "GABC"; JString EmptyString; JString "GHIJ"]);
                             ("denomination", JString "USD");
                             ("businessName", JString "Example Store")]))
    by (vm_compute; reflexivity).
  destruct (C7_address_lists _ _ P) as (_ & U & X & _).
  split; [exact (X _ eq_refl)|exact (U eq_refl)].
Defined.

(** ** Properties of the page *)

Lemma handled_pure (p : Page) (st : State) (effects : list Effect) :
  delays effects = [] ->
  handled p (st, effects) =
    ({| session := st; now := now p; timers := timers p |}, effects).
Proof.
  intros H. unfold handled. simpl. rewrite H. simpl. rewrite app_nil_r. reflexivity.
Qed.

Lemma onConnect_state (c : Currency) (st : State) (address : JSValue) (index : nat) :
  fst (onConnect c st address index) = st.
Proof.
  destruct c; reflexivity.
Qed.

Lemma onConnect_delays (c : Currency) (st : State) (address : JSValue) (index : nat) :
  delays (snd (onConnect c st address index)) = [].
Proof.
  destruct c; reflexivity.
Qed.

Lemma handled_connect (p : Page) (c : Currency) (address : JSValue) (index : nat) :
  handled p (onConnect c (session p) address index) =
    (p, snd (onConnect c (session p) address index)).
Proof.
  rewrite (surjective_pairing (onConnect c (session p) address index)).
  rewrite handled_pure by apply onConnect_delays.
  rewrite onConnect_state. destruct p; reflexivity.
Qed.

Lemma step_connect (p : Page) (c : Currency) (index : nat) :
  step p (ClickConnect c index) =
    option_map (fun address => (p, snd (onConnect c (session p) address index)))
      (rendered c index (session p)).
Proof.
  unfold step. destruct (rendered c index (session p)) as [address|]; simpl;
    [rewrite handled_connect|]; reflexivity.
Qed.

(** *** Rendering *)

Lemma flags_eta (st : State) :
  setShowUSDCModal (setShowXLMModal st (showXLMModal st)) (showUSDCModal st) = st.
Proof.
  destruct st; reflexivity.
Qed.

(** A page that renders with both modals open renders with any of them
    closed. *)
Lemma renders_flags (st : State) (x u : bool) :
  renders (open_both st) = true ->
  renders (setShowUSDCModal (setShowXLMModal st x) u) = true.
Proof.
  unfold renders, open_both, modal_renders.
  cbn [isOpen addresses paymentData showXLMModal showUSDCModal
       setShowXLMModal setShowUSDCModal].
  intros H. apply andb_true_iff in H. destruct H as [H HU].
  apply andb_true_iff in H. destruct H as [HD HX].
  rewrite HD. destruct x, u; cbn [andb]; rewrite ?HX, ?HU; reflexivity.
Qed.

Lemma renders_setShowModal (c : Currency) (st : State) (b : bool) :
  renders (open_both st) = true -> renders (setShowModal c st b) = true.
Proof.
  intros H. destruct c; cbn [setShowModal].
  - replace (setShowXLMModal st b)
      with (setShowUSDCModal (setShowXLMModal st b) (showUSDCModal st))
      by (destruct st; reflexivity).
    apply renders_flags. exact H.
  - replace (setShowUSDCModal st b)
      with (setShowUSDCModal (setShowXLMModal st (showXLMModal st)) b)
      by (destruct st; reflexivity).
    apply renders_flags. exact H.
Qed.

(** Closing a modal cannot break the render. *)
Lemma renders_close (c : Currency) (st : State) :
  renders (setShowModal c st true) = true -> renders (setShowModal c st false) = true.
Proof.
  unfold renders, modal_renders. destruct c;
    cbn [setShowModal isOpen addresses paymentData showXLMModal showUSDCModal
         setShowXLMModal setShowUSDCModal];
    intros H; apply andb_true_iff in H; destruct H as [H HU];
    apply andb_true_iff in H; destruct H as [HD HX];
    rewrite HD, ?HX, ?HU; reflexivity.
Qed.

Lemma renders_setCopiedAddress (st : State) (key : string) :
  renders (setCopiedAddress st key) = renders st.
Proof.
  reflexivity.
Qed.

Lemma live_step_sound (p p' : Page) (a : Action) (e : list Effect) :
  live_step p a = Some (p', e) ->
  step p a = Some (p', e) /\ renders (session p') = true.
Proof.
  unfold live_step. destruct (step p a) as [[q e0]|]; cbn [bind]; [|discriminate].
  destruct (renders (session q)) eqn:R; [|discriminate].
  intros H; inversion H; subst. split; [reflexivity|exact R].
Qed.

Lemma live_step_complete (p p' : Page) (a : Action) (e : list Effect) :
  step p a = Some (p', e) -> renders (session p') = true ->
  live_step p a = Some (p', e).
Proof.
  intros S R. unfold live_step. rewrite S. cbn [bind]. rewrite R. reflexivity.
Qed.

Lemma live_step_pay (p : Page) (c : Currency) :
  truthy (amount (paymentData (session p))) = true ->
  renders (setShowModal c (session p) true) = true ->
  live_step p (ClickPay c) =
    Some ({| session := setShowModal c (session p) true;
             now := now p; timers := timers p |}, []).
Proof.
  intros T R. apply live_step_complete; [|exact R].
  cbn [step]. rewrite T. rewrite handled_pure by reflexivity. reflexivity.
Qed.

(** Three requests the loader accepts and the page cannot show: with a string
    for the XLM list the page is gone once the XLM modal opens, with an object
    for the amount it is gone on the load itself, with an object among the
    addresses once the modal opens. *)
Example unrenderable_requests :
  run start [TypeJson request_with_string_list; ClickLoad; ClickPay XLM] <> None
  /\ live_run start [TypeJson request_with_string_list; ClickLoad] <> None
  /\ live_run start [TypeJson request_with_string_list; ClickLoad; ClickPay XLM] = None
  /\ run start [TypeJson request_with_object_amount; ClickLoad] <> None
  /\ live_run start [TypeJson request_with_object_amount; ClickLoad] = None
  /\ live_run start [TypeJson request_with_object_address; ClickLoad] <> None
  /\ live_run start [TypeJson request_with_object_address; ClickLoad; ClickPay XLM] = None.
Proof.
  repeat split; vm_compute; try reflexivity; discriminate.
Qed.

(** C2 (counterexample).  With the 150 USD request loaded, pressing "Pay with
    XLM" and then "Pay with USDC" reaches a state in which both modals are
    visible; so do the two handlers of the second version. *)
Lemma C2_both_modals_open :
  exists p,
    run start [TypeJson request_150; ClickLoad; ClickPay XLM; ClickPay USDC] = Some (p, [])
    /\ reachable p
    /\ showXLMModal (session p) = true
    /\ showUSDCModal (session p) = true
    /\ Platform1.run Platform1.initial [Platform1.PayXLM; Platform1.PayUSDC] =
         Some ({| Platform1.showXLMModal := true;
                  Platform1.showUSDCModal := true;
                  Platform1.selectedNetwork := None |}, []).
Proof.
  eexists. split; [vm_compute; reflexivity|].
  split; [|repeat split].
  exists [TypeJson request_150; ClickLoad; ClickPay XLM; ClickPay USDC], [].
  vm_compute. reflexivity.
Qed.

(** C2 (amended).  The two visibility flags are independent.  On a page whose
    pay buttons are enabled (the stored amount is truthy) and whose data the
    two modals can show (the page renders with both modals open), pressing the
    button of one network makes that network's modal visible and leaves the
    other flag as it was, so pressing XLM and then USDC leaves both modals
    visible; the outcome is a function of the state.  The handlers of the
    second version behave the same and have no guard. *)
Theorem C2_modal_flags_independent (p : Page) :
  truthy (amount (paymentData (session p))) = true ->
  renders (open_both (session p)) = true ->
  (forall c, exists p',
      live_step p (ClickPay c) = Some (p', [])
      /\ isOpen c (session p') = true
      /\ isOpen (other c) (session p') = isOpen (other c) (session p))
  /\ (exists p',
      live_run p [ClickPay XLM; ClickPay USDC] = Some (p', [])
      /\ showXLMModal (session p') = true
      /\ showUSDCModal (session p') = true
      /\ renders (session p') = true)
  /\ (forall st,
      Platform1.showXLMModal (Platform1.handleXLMPayment st) = true
      /\ Platform1.showUSDCModal (Platform1.handleXLMPayment st) =
           Platform1.showUSDCModal st
      /\ Platform1.showUSDCModal (Platform1.handleUSDCPayment st) = true
      /\ Platform1.showXLMModal (Platform1.handleUSDCPayment st) =
           Platform1.showXLMModal st).
Proof.
  intros T R. split; [|split].
  - intros c. rewrite (live_step_pay p c T (renders_setShowModal c _ true R)).
    eexists. split; [reflexivity|]. destruct c; split; reflexivity.
  - cbn [live_run].
    rewrite (live_step_pay p XLM T (renders_setShowModal XLM _ true R)). cbn [bind].
    rewrite (live_step_pay _ USDC); [|exact T|exact R]. cbn [bind app].
    eexists. split; [reflexivity|]. repeat split. exact R.
  - intros st. repeat split.
Qed.

(** C2 on the page that has the 150 USD request loaded. *)
Lemma C2_modal_flags_witness :
  exists p',
    live_run (page_of (loaded request_150)) [ClickPay XLM; ClickPay USDC] = Some (p', [])
    /\ showXLMModal (session p') = true
    /\ showUSDCModal (session p') = true
    /\ renders (session p') = true.
Proof.
  refine (proj1 (proj2 (C2_modal_flags_independent (page_of (loaded request_150)) _ _)));
    vm_compute; reflexivity.
Defined.

(** C10.  Connecting never changes the session: each connect handler returns
    the state it was given (payment data, both modal flags, the copied mark
    and the input text), and on the page the click leaves the clock and the
    pending timers as they were too, so nothing is left to arrive later.  The
    same holds for the second version's handler. *)
Theorem C10_connect_leaves_state_unchanged :
  (forall st address index, fst (connectToStellarWallet st address index) = st)
  /\ (forall st address index, fst (connectToUSDCWallet st address index) = st)
  /\ (forall p c index,
      step p (ClickConnect c index) =
        option_map (fun address => (p, snd (onConnect c (session p) address index)))
          (rendered c index (session p)))
  /\ (forall st address network,
      fst (Platform1.handleWalletConnect st address network) = st)
  /\ (forall st index,
      option_map fst (Platform1.step st (Platform1.ConnectStellar index)) =
        (if Platform1.showXLMModal st
         then option_map (fun _ => st) (nth_error Platform1.stellarAddresses index)
         else None)
      /\ option_map fst (Platform1.step st (Platform1.ConnectEthereum index)) =
        (if Platform1.showUSDCModal st
         then option_map (fun _ => st) (nth_error Platform1.usdcAddresses index)
         else None)).
Proof.
  repeat split; try apply step_connect; simpl.
  - destruct (Platform1.showXLMModal st); [|reflexivity].
    destruct (nth_error Platform1.stellarAddresses index); reflexivity.
  - destruct (Platform1.showUSDCModal st); [|reflexivity].
    destruct (nth_error Platform1.usdcAddresses index); reflexivity.
Qed.

(** C8 (counterexample).  Copy address 0 in the XLM modal, close the modal
    and, half a second later, load the 150 USD request: the load succeeds, and
    the copied mark of the previous request is still set on the new one, its
    timer still pending. *)
Lemma C8_copied_mark_survives_load :
  run start [TypeJson request_three_addresses; ClickLoad; ClickPay XLM;
             ClickCopy XLM 0 WriteResolves; ClickClose XLM; Wait 500;
             TypeJson request_150; ClickLoad] =
    Some ({| session := setCopiedAddress (loaded request_150) "XLM-0";
             now := 500%Z;
             timers := [2000%Z] |},
          [ClipboardWrite (JString "GABC"); SetTimeout 2000])
  /\ copied XLM 0 (setCopiedAddress (loaded request_150) "XLM-0") = true
  /\ paymentData (setCopiedAddress (loaded request_150) "XLM-0") =
       {| amount := JNumber 150 0;
          xlmAddresses := JArray [JString "GABC"];
          usdcAddresses := JArray [];
          denomination := JString "USD";
          businessName := blank;
          description := blank |}.
Proof.
  repeat split; vm_compute; reflexivity.
Qed.

(** C8 (amended).  A load, successful or not, touches the payment data only:
    both modal flags, the copied mark and the input text are those of before,
    and on the page the clock and the pending timers are unchanged. *)
Theorem C8_load_keeps_the_rest (p : Page) :
  exists p' effects,
    step p ClickLoad = Some (p', effects)
    /\ showXLMModal (session p') = showXLMModal (session p)
    /\ showUSDCModal (session p') = showUSDCModal (session p)
    /\ copiedAddress (session p') = copiedAddress (session p)
    /\ jsonInput (session p') = jsonInput (session p)
    /\ now p' = now p
    /\ timers p' = timers p.
Proof.
  unfold step, loadFromJSON.
  destruct (parsed_payment (jsonInput (session p))) as [d|];
    eexists _, _; (split; [reflexivity|]); simpl; rewrite app_nil_r; repeat split.
Qed.

(** ** The copied mark and its timers *)

Lemma rendered_setCopiedAddress (c : Currency) (i : nat) (st : State) (key : string) :
  rendered c i (setCopiedAddress st key) = rendered c i st.
Proof.
  destruct c; reflexivity.
Qed.

Lemma copied_set (c : Currency) (i : nat) (st : State) :
  copied c i (setCopiedAddress st (copy_key c i)) = true.
Proof.
  unfold copied. simpl. apply String.eqb_refl.
Qed.

Lemma copied_cleared (c : Currency) (i : nat) (st : State) :
  copied c i (clear_copied st) = false.
Proof.
  destruct c; reflexivity.
Qed.

Lemma step_copy (p : Page) (c : Currency) (i : nat) (clip : Clipboard) (a : JSValue) :
  rendered c i (session p) = Some a -> clip <> NoClipboard ->
  step p (ClickCopy c i clip) =
    Some ({| session := setCopiedAddress (session p) (copy_key c i);
             now := now p;
             timers := timers p ++ [(now p + 2000)%Z] |},
          [ClipboardWrite a; SetTimeout 2000]).
Proof.
  intros Hr Hc. unfold step. rewrite Hr. cbn [bind].
  destruct clip; [contradiction| |]; reflexivity.
Qed.

Lemma step_wait (p : Page) (d : Z) :
  (0 <= d)%Z -> step p (Wait d) = Some (elapse p (now p + d)%Z, []).
Proof.
  intros H. unfold step. destruct (Z.ltb_spec d 0); [lia|reflexivity].
Qed.

(** Before the only pending timer is due nothing happens. *)
Lemma elapse_before (st : State) (n due t : Z) :
  (t < due)%Z ->
  elapse {| session := st; now := n; timers := [due] |} t =
    {| session := st; now := t; timers := [due] |}.
Proof.
  intros H. unfold elapse. simpl.
  destruct (Z.leb_spec due t); [lia|]. destruct (Z.ltb_spec t due); [|lia].
  reflexivity.
Qed.

(** Once a timer is due the mark is cleared, whichever copy set it. *)
Lemma elapse_clears (p : Page) (t due : Z) (c : Currency) (i : nat) :
  In due (timers p) -> (due <= t)%Z ->
  copied c i (session (elapse p t)) = false.
Proof.
  intros Hin Hle. unfold elapse. simpl.
  assert (Hne : filter (fun due0 => (due0 <=? t)%Z) (timers p) <> []).
  { intros E. assert (Hf : In due (filter (fun due0 => (due0 <=? t)%Z) (timers p))).
    { apply filter_In. split; [exact Hin|]. apply Z.leb_le. exact Hle. }
    rewrite E in Hf. exact Hf. }
  revert Hne. generalize (filter (fun due0 => (due0 <=? t)%Z) (timers p)) as l.
  generalize (session p) as st.
  intros st l. revert st. induction l as [|x l IH]; intros st Hne; [contradiction|].
  simpl. destruct l as [|y l].
  - apply copied_cleared.
  - apply IH. discriminate.
Qed.

(** C9 (counterexample).  A copy whose clipboard write is rejected sets the
    copied mark all the same: the page after it is the page after a write that
    succeeds, and nothing tells the caller of the failure. *)
Lemma C9_rejected_write_sets_mark :
  run xlm_modal_page [ClickCopy XLM 0 WriteRejects] =
    Some ({| session := setCopiedAddress (session xlm_modal_page) "XLM-0";
             now := 0%Z;
             timers := [2000%Z] |},
          [ClipboardWrite (JString "GABC"); SetTimeout 2000])
  /\ copied XLM 0 (setCopiedAddress (session xlm_modal_page) "XLM-0") = true
  /\ copied XLM 0 (session xlm_modal_page) = false
  /\ run xlm_modal_page [ClickCopy XLM 0 WriteRejects] =
       run xlm_modal_page [ClickCopy XLM 0 WriteResolves].
Proof.
  repeat split; vm_compute; reflexivity.
Qed.

(** C9 (amended).  The handler never looks at the outcome of the clipboard
    write: whether the returned promise resolves or rejects, a copy sets the
    copied mark of its entry, schedules the two-second clear and returns
    normally, surfacing nothing.  Only when the browser offers no clipboard at
    all does the call throw, before any state is set. *)
Theorem C9_copy_ignores_write_outcome
    (p : Page) (c : Currency) (i : nat) (a : JSValue) :
  rendered c i (session p) = Some a ->
  (exists p',
      step p (ClickCopy c i WriteRejects) =
        Some (p', [ClipboardWrite a; SetTimeout 2000])
      /\ copied c i (session p') = true
      /\ timers p' = timers p ++ [(now p + 2000)%Z])
  /\ step p (ClickCopy c i WriteRejects) = step p (ClickCopy c i WriteResolves)
  /\ (forall content type,
      copyToClipboard WriteRejects (session p) content type =
        Some (setCopiedAddress (session p) type,
              [ClipboardWrite content; SetTimeout 2000]))
  /\ step p (ClickCopy c i NoClipboard) = None.
Proof.
  intros Hr. split; [|split; [|split]].
  - eexists. rewrite (step_copy p c i WriteRejects a Hr) by discriminate.
    split; [reflexivity|]. split; [apply copied_set|reflexivity].
  - rewrite !(step_copy p c i _ a Hr) by discriminate. reflexivity.
  - reflexivity.
  - unfold step. rewrite Hr. reflexivity.
Qed.

(** C9 at address 0 of the open XLM modal. *)
Lemma C9_copy_ignores_write_outcome_witness :
  step xlm_modal_page (ClickCopy XLM 0 WriteRejects) =
    step xlm_modal_page (ClickCopy XLM 0 WriteResolves).
Proof.
  refine (proj1 (proj2 (C9_copy_ignores_write_outcome xlm_modal_page XLM 0
                          (JString "GABC") _))).
  vm_compute. reflexivity.
Defined.

(** C4 (counterexample).  Copy address 0 at time 0 and again at 1500 ms: at
    2000 ms, before the 3500 ms the second copy would run to, the mark is
    already cleared by the first copy's timer, which the second copy did not
    cancel. *)
Lemma C4_second_copy_does_not_restart :
  run start [TypeJson request_three_addresses; ClickLoad; ClickPay XLM;
             ClickCopy XLM 0 WriteResolves; Wait 1500] =
    Some ({| session := setCopiedAddress (session xlm_modal_page) "XLM-0";
             now := 1500%Z;
             timers := [2000%Z] |},
          [ClipboardWrite (JString "GABC"); SetTimeout 2000])
  /\ run {| session := setCopiedAddress (session xlm_modal_page) "XLM-0";
            now := 1500%Z;
            timers := [2000%Z] |}
       [ClickCopy XLM 0 WriteResolves; Wait 500] =
      Some ({| session := session xlm_modal_page;
               now := 2000%Z;
               timers := [3500%Z] |},
            [ClipboardWrite (JString "GABC"); SetTimeout 2000])
  /\ copied XLM 0 (setCopiedAddress (session xlm_modal_page) "XLM-0") = true
  /\ copied XLM 0 (session xlm_modal_page) = false
  /\ (2000 < 1500 + 2000)%Z.
Proof.
  repeat split; vm_compute; reflexivity.
Qed.

(** C4 (amended).  A copy at time T, with no timer pending, sets the copied
    mark of its entry and schedules a clear for T + 2000 ms: the mark is shown
    at every time before that and is cleared at T + 2000 ms.  A second copy
    before the expiry cancels nothing: it adds a timer of its own after the
    first one, and the first one still clears the mark at T + 2000 ms. *)
Theorem C4_copy_feedback_expiry
    (p : Page) (c : Currency) (i : nat) (clip1 clip2 : Clipboard)
    (a : JSValue) (d : Z) :
  rendered c i (session p) = Some a ->
  clip1 <> NoClipboard -> clip2 <> NoClipboard ->
  timers p = [] ->
  (0 <= d < 2000)%Z ->
  (exists p1 e1,
      run p [ClickCopy c i clip1; Wait d] = Some (p1, e1)
      /\ now p1 = (now p + d)%Z
      /\ copied c i (session p1) = true
      /\ timers p1 = [(now p + 2000)%Z])
  /\ (exists p2 e2,
      run p [ClickCopy c i clip1; Wait 2000] = Some (p2, e2)
      /\ now p2 = (now p + 2000)%Z
      /\ copied c i (session p2) = false
      /\ timers p2 = [])
  /\ (exists p3 e3,
      run p [ClickCopy c i clip1; Wait d; ClickCopy c i clip2] = Some (p3, e3)
      /\ copied c i (session p3) = true
      /\ timers p3 = [(now p + 2000)%Z; (now p + d + 2000)%Z])
  /\ (exists p4 e4,
      run p [ClickCopy c i clip1; Wait d; ClickCopy c i clip2; Wait (2000 - d)] =
        Some (p4, e4)
      /\ now p4 = (now p + d + (2000 - d))%Z
      /\ copied c i (session p4) = false).
Proof.
  intros Hr H1 H2 Ht Hd.
  pose proof (step_copy p c i clip1 a Hr H1) as S1. rewrite Ht in S1. cbn [app] in S1.
  set (q := {| session := setCopiedAddress (session p) (copy_key c i);
               now := (now p + d)%Z;
               timers := [(now p + 2000)%Z] |}).
  assert (W : step {| session := setCopiedAddress (session p) (copy_key c i);
                      now := now p;
                      timers := [(now p + 2000)%Z] |} (Wait d) = Some (q, [])).
  { rewrite step_wait by lia. simpl. rewrite elapse_before by lia. reflexivity. }
  assert (S2 : step q (ClickCopy c i clip2) =
               Some ({| session := setCopiedAddress (session p) (copy_key c i);
                        now := (now p + d)%Z;
                        timers := [(now p + 2000)%Z; (now p + d + 2000)%Z] |},
                     [ClipboardWrite a; SetTimeout 2000])).
  { rewrite (step_copy q c i clip2 a); [reflexivity| |exact H2].
    unfold q. simpl. rewrite rendered_setCopiedAddress. exact Hr. }
  split; [|split; [|split]].
  - exists q, [ClipboardWrite a; SetTimeout 2000].
    cbn [run]. rewrite S1. cbn [bind]. rewrite W. cbn [bind].
    split; [reflexivity|]. split; [reflexivity|].
    split; [apply copied_set|reflexivity].
  - eexists _, _. cbn [run]. rewrite S1. cbn [bind].
    rewrite step_wait by lia. cbn [bind]. split; [reflexivity|].
    split; [reflexivity|]. split.
    + apply (elapse_clears _ _ (now p + 2000)%Z); [left; reflexivity|cbn [now]; lia].
    + unfold elapse. simpl. destruct (Z.ltb_spec (now p + 2000) (now p + 2000)); [lia|].
      reflexivity.
  - eexists _, _. cbn [run]. rewrite S1. cbn [bind]. rewrite W. cbn [bind].
    rewrite S2. cbn [bind]. split; [reflexivity|].
    split; [apply copied_set|reflexivity].
  - eexists _, _. cbn [run]. rewrite S1. cbn [bind]. rewrite W. cbn [bind].
    rewrite S2. cbn [bind]. rewrite step_wait by lia. cbn [bind].
    split; [reflexivity|]. split; [reflexivity|].
    apply (elapse_clears _ _ (now p + 2000)%Z); [left; reflexivity|cbn [now]; lia].
Qed.

(** C4 with a second copy 1500 ms after the first. *)
Lemma C4_copy_feedback_witness :
  exists p4 e4,
    run xlm_modal_page
      [ClickCopy XLM 0 WriteResolves; Wait 1500; ClickCopy XLM 0 WriteResolves;
       Wait (2000 - 1500)] = Some (p4, e4)
    /\ now p4 = (now xlm_modal_page + 1500 + (2000 - 1500))%Z
    /\ copied XLM 0 (session p4) = false.
Proof.
  refine (proj2 (proj2 (proj2
    (C4_copy_feedback_expiry xlm_modal_page XLM 0 WriteResolves WriteResolves
       (JString "GABC") 1500 _ _ _ _ _)))).
  - vm_compute; reflexivity.
  - discriminate.
  - discriminate.
  - reflexivity.
  - lia.
Defined.

(** * Further properties of the two pages *)

(** ** The key of a Copy button *)

Lemma index_string_injective (i j : nat) :
  index_string i = index_string j -> i = j.
Proof.
  unfold index_string. intros H.
  apply (f_equal NilEmpty.uint_of_string) in H.
  rewrite !NilEmpty.usu in H. inversion H as [E].
  apply (f_equal Nat.of_uint) in E.
  rewrite !DecimalNat.Unsigned.of_to in E. exact E.
Qed.

Lemma copy_key_injective (c c' : Currency) (i j : nat) :
  copy_key c i = copy_key c' j -> c = c' /\ i = j.
Proof.
  unfold copy_key. destruct c, c'; simpl; intros H; try discriminate;
    (split; [reflexivity|]); apply index_string_injective;
    inversion H; reflexivity.
Qed.

(** X1.  At most one address, over both modals, shows the copied mark: two
    Copy buttons that both read "Copied!" are the same button. *)
Theorem X1_copied_mark_unique (st : State) (c c' : Currency) (i j : nat) :
  copied c i st = true -> copied c' j st = true -> c = c' /\ i = j.
Proof.
  unfold copied. intros H1 H2.
  apply String.eqb_eq in H1. apply String.eqb_eq in H2.
  apply copy_key_injective. congruence.
Qed.

(** X1 at address 0 of the XLM modal. *)
Lemma X1_copied_mark_unique_witness :
  copied XLM 0 (setCopiedAddress initial "XLM-0") = true /\ XLM = XLM /\ 0 = 0.
Proof.
  split; [reflexivity|].
  apply (X1_copied_mark_unique (setCopiedAddress initial "XLM-0") XLM XLM 0 0);
    reflexivity.
Defined.

(** X2.  A copy replaces the mark of the copy before it: after copying one
    address and then another, the second is marked and the first no longer
    is, while both timers stay pending. *)
Theorem X2_copy_replaces_mark
    (p : Page) (c c' : Currency) (i j : nat) (clip clip' : Clipboard)
    (a b : JSValue) :
  rendered c i (session p) = Some a ->
  rendered c' j (session p) = Some b ->
  clip <> NoClipboard -> clip' <> NoClipboard ->
  exists p',
    run p [ClickCopy c i clip; ClickCopy c' j clip'] =
      Some (p', [ClipboardWrite a; SetTimeout 2000;
                 ClipboardWrite b; SetTimeout 2000])
    /\ copied c' j (session p') = true
    /\ ((c, i) <> (c', j) -> copied c i (session p') = false)
    /\ timers p' = timers p ++ [(now p + 2000)%Z; (now p + 2000)%Z].
Proof.
  intros Ha Hb Hc Hc'. eexists. cbn [run].
  rewrite (step_copy p c i clip a Ha Hc). cbn [bind].
  rewrite (step_copy _ c' j clip' b); [| |exact Hc'].
  2:{ cbn [session]. rewrite rendered_setCopiedAddress. exact Hb. }
  cbn [bind session now timers app]. split; [reflexivity|].
  split; [apply copied_set|]. split.
  - intros Hne. unfold copied. cbn [copiedAddress setCopiedAddress].
    apply String.eqb_neq. intros E. apply copy_key_injective in E.
    destruct E as [-> ->]. contradiction.
  - rewrite <- app_assoc. reflexivity.
Qed.

(** X2 at addresses 0 and 2 of the open XLM modal. *)
Lemma X2_copy_replaces_mark_witness :
  exists p',
    run xlm_modal_page [ClickCopy XLM 0 WriteResolves; ClickCopy XLM 2 WriteRejects] =
      Some (p', [ClipboardWrite (JString "GABC"); SetTimeout 2000;
                 ClipboardWrite (JString "GHIJ"); SetTimeout 2000])
    /\ copied XLM 2 (session p') = true
    /\ ((XLM, 0) <> (XLM, 2) -> copied XLM 0 (session p') = false)
    /\ timers p' = timers xlm_modal_page ++ [(now xlm_modal_page + 2000)%Z;
                                             (now xlm_modal_page + 2000)%Z].
Proof.
  apply (X2_copy_replaces_mark xlm_modal_page XLM XLM 0 2 WriteResolves WriteRejects
           (JString "GABC") (JString "GHIJ")).
  - vm_compute; reflexivity.
  - vm_compute; reflexivity.
  - discriminate.
  - discriminate.
Defined.

(** ** Invariants of the page *)

Lemma run_invariant (I : Page -> Prop) :
  (forall p p' a e, step p a = Some (p', e) -> I p -> I p') ->
  forall actions p p' e, run p actions = Some (p', e) -> I p -> I p'.
Proof.
  intros Hstep. induction actions as [|a rest IH]; intros p p' e; cbn [run].
  - intros H; inversion H; subst; exact (fun i => i).
  - destruct (step p a) as [[p1 e1]|] eqn:S1; cbn [bind]; [|discriminate].
    destruct (run p1 rest) as [[p2 e2]|] eqn:R; cbn [bind]; [|discriminate].
    intros H; inversion H; subst. intros Hp.
    exact (IH _ _ _ R (Hstep _ _ _ _ S1 Hp)).
Qed.

Lemma fold_clear_copied (due : list Z) (st : State) :
  fold_left (fun st0 (_ : Z) => clear_copied st0) due st =
    match due with
    | [] => st
    | _ :: _ => clear_copied st
    end.
Proof.
  revert st. induction due as [|x due IH]; intros st; [reflexivity|].
  cbn [fold_left]. rewrite IH. destruct due; reflexivity.
Qed.

Lemma filter_none_due (t : Z) (l : list Z) :
  filter (fun due => (due <=? t)%Z) l = [] ->
  filter (fun due => (t <? due)%Z) l = l.
Proof.
  induction l as [|x l IH]; [reflexivity|]. cbn [filter].
  destruct (Z.leb_spec x t) as [Hle|Hgt]; [discriminate|].
  destruct (Z.ltb_spec t x) as [_|Hge]; [|lia].
  intros E. rewrite (IH E). reflexivity.
Qed.

(** Time passing either finds no timer due and changes nothing but the clock,
    or runs at least one callback, which clears the copied mark. *)
Lemma elapse_cases (p : Page) (t : Z) :
  (filter (fun due => (due <=? t)%Z) (timers p) = []
   /\ elapse p t = {| session := session p; now := t; timers := timers p |})
  \/ (filter (fun due => (due <=? t)%Z) (timers p) <> []
      /\ session (elapse p t) = clear_copied (session p)).
Proof.
  unfold elapse. rewrite fold_clear_copied.
  destruct (filter (fun due => (due <=? t)%Z) (timers p)) eqn:E.
  - left. split; [reflexivity|]. rewrite (filter_none_due _ _ E). reflexivity.
  - right. split; [discriminate|reflexivity].
Qed.

(** What each event but a copy or a wait leaves alone. *)
Lemma step_quiet (p p' : Page) (a : Action) (e : list Effect) :
  step p a = Some (p', e) ->
  match a with
  | ClickCopy _ _ _ | Wait _ => True
  | _ =>
      copiedAddress (session p') = copiedAddress (session p)
      /\ timers p' = timers p
      /\ now p' = now p
  end.
Proof.
  destruct a as [s| |c|c|c i clip|c i|d]; try exact (fun _ => I).
  - cbn [step]. intros H; inversion H; subst. cbn. rewrite app_nil_r. repeat split.
  - cbn [step]. unfold loadFromJSON. destruct (parsed_payment (jsonInput (session p)));
      intros H; inversion H; subst; cbn; rewrite app_nil_r; repeat split.
  - cbn [step]. destruct (truthy (amount (paymentData (session p)))); [|discriminate].
    intros H; inversion H; subst. destruct c; cbn; rewrite app_nil_r; repeat split.
  - cbn [step]. destruct (isOpen c (session p)); [|discriminate].
    intros H; inversion H; subst. destruct c; cbn; rewrite app_nil_r; repeat split.
  - rewrite step_connect.
    destruct (rendered c i (session p)); cbn [option_map]; [|discriminate].
    intros H; inversion H; subst. repeat split.
Qed.

Lemma timers_pending_step (p p' : Page) (a : Action) (e : list Effect) :
  step p a = Some (p', e) -> timers_pending p -> timers_pending p'.
Proof.
  intros S [B M].
  destruct a as [s| |c|c|c i clip|c i|d];
    try (pose proof (step_quiet _ _ _ _ S) as (Ec & Et & En);
         unfold timers_pending; rewrite Ec, Et, En; split; assumption).
  - cbn [step] in S.
    destruct (rendered c i (session p)) as [a|] eqn:R; cbn [bind] in S; [|discriminate].
    destruct clip; cbn in S; [discriminate| |];
      inversion S; subst; unfold timers_pending; cbn [session now timers];
      (split; [apply Forall_app; split; [exact B|constructor; [lia|constructor]]
              |intros _ E; apply app_eq_nil in E; destruct E; discriminate]).
  - cbn [step] in S. destruct (Z.ltb_spec d 0); [discriminate|].
    inversion S; subst. clear S. unfold timers_pending. split.
    + unfold elapse. cbn [now timers]. apply Forall_forall. intros due Hin.
      apply filter_In in Hin. destruct Hin as [Hin Hlt].
      apply Z.ltb_lt in Hlt. rewrite Forall_forall in B. specialize (B _ Hin). lia.
    + destruct (elapse_cases p (now p + d)%Z) as [[_ E]|[_ E]].
      * rewrite E. cbn [session timers]. exact M.
      * rewrite E. cbn. intros C. contradiction.
Qed.

Lemma timers_pending_start : timers_pending start.
Proof.
  split; [constructor|]. intros C. contradiction.
Qed.

(** X3.  On every page the payer can reach, each pending clear is due within
    the next two seconds, and a copied mark that is set has a clear pending:
    the mark never outlives its timers. *)
Theorem X3_mark_has_a_timer (p : Page) :
  reachable p ->
  Forall (fun due => (now p < due <= now p + 2000)%Z) (timers p)
  /\ (copiedAddress (session p) <> EmptyString -> timers p <> []).
Proof.
  intros (actions & effects & R).
  exact (run_invariant timers_pending timers_pending_step _ _ _ _ R
           timers_pending_start).
Qed.

(** X4.  From every page the payer can reach, two seconds without a click
    leave no address marked as copied and no timer pending. *)
Theorem X4_mark_gone_after_two_seconds (p : Page) :
  reachable p ->
  exists p',
    step p (Wait 2000) = Some (p', [])
    /\ now p' = (now p + 2000)%Z
    /\ copiedAddress (session p') = EmptyString
    /\ timers p' = [].
Proof.
  intros (actions & effects & R).
  destruct (run_invariant timers_pending timers_pending_step _ _ _ _ R
              timers_pending_start) as [B M].
  eexists. split; [reflexivity|]. split; [reflexivity|]. split.
  - destruct (elapse_cases p (now p + 2000)%Z) as [[F E]|[_ E]]; rewrite E.
    + cbn [session]. destruct (timers p) as [|due rest] eqn:T.
      * destruct (copiedAddress (session p)) eqn:C; [reflexivity|].
        exfalso. apply M; [discriminate|reflexivity].
      * exfalso. inversion B as [|x l Hd _]; subst. cbn [filter] in F.
        destruct (Z.leb_spec due (now p + 2000)); [discriminate|lia].
    + reflexivity.
  - unfold elapse. cbn [timers]. rewrite Forall_forall in B.
    destruct (filter (fun due => (now p + 2000 <? due)%Z) (timers p)) as [|x l] eqn:F;
      [reflexivity|].
    assert (Hin : In x (filter (fun due => (now p + 2000 <? due)%Z) (timers p)))
      by (rewrite F; left; reflexivity).
    apply filter_In in Hin. destruct Hin as [Hin Hlt]. apply Z.ltb_lt in Hlt.
    specialize (B _ Hin). lia.
Qed.

(** X3 on the page 1500 ms after a copy. *)
Lemma X3_mark_has_a_timer_witness :
  Forall (fun due => (now copied_page < due <= now copied_page + 2000)%Z)
    (timers copied_page)
  /\ (copiedAddress (session copied_page) <> EmptyString -> timers copied_page <> []).
Proof.
  apply (X3_mark_has_a_timer copied_page).
  exists [TypeJson request_three_addresses; ClickLoad; ClickPay XLM;
          ClickCopy XLM 0 WriteResolves; Wait 1500],
         [ClipboardWrite (JString "GABC"); SetTimeout 2000].
  vm_compute. reflexivity.
Defined.

(** X4 on the page 1500 ms after a copy. *)
Lemma X4_mark_gone_after_two_seconds_witness :
  exists p',
    step copied_page (Wait 2000) = Some (p', [])
    /\ now p' = (now copied_page + 2000)%Z
    /\ copiedAddress (session p') = EmptyString
    /\ timers p' = [].
Proof.
  apply (X4_mark_gone_after_two_seconds copied_page).
  exists [TypeJson request_three_addresses; ClickLoad; ClickPay XLM;
          ClickCopy XLM 0 WriteResolves; Wait 1500],
         [ClipboardWrite (JString "GABC"); SetTimeout 2000].
  vm_compute. reflexivity.
Defined.

Lemma elapse_session (p : Page) (t : Z) :
  paymentData (session (elapse p t)) = paymentData (session p)
  /\ jsonInput (session (elapse p t)) = jsonInput (session p)
  /\ showXLMModal (session (elapse p t)) = showXLMModal (session p)
  /\ showUSDCModal (session (elapse p t)) = showUSDCModal (session p).
Proof.
  destruct (elapse_cases p t) as [[_ E]|[_ E]]; rewrite E; repeat split.
Qed.

(** What an event leaves alone, cell by cell. *)
Lemma step_frame
    (p p' : Page) (a : Action) (e : list Effect) :
  step p a = Some (p', e) ->
  (keeps_payment_data a = true ->
   paymentData (session p') = paymentData (session p))
  /\ (keeps_input a = true -> jsonInput (session p') = jsonInput (session p))
  /\ (keeps_modals a = true ->
      showXLMModal (session p') = showXLMModal (session p)
      /\ showUSDCModal (session p') = showUSDCModal (session p))
  /\ (keeps_mark a = true ->
      copiedAddress (session p') = copiedAddress (session p)
      /\ timers p' = timers p).
Proof.
  intros S. destruct a as [s| |c|c|c i clip|c i|d].
  - cbn [step] in S. inversion S; subst. cbn.
    rewrite app_nil_r. frame_case.
  - cbn [step] in S. unfold loadFromJSON in S.
    destruct (parsed_payment (jsonInput (session p))); inversion S; subst; cbn;
      rewrite app_nil_r; frame_case.
  - cbn [step] in S.
    destruct (truthy (amount (paymentData (session p)))); [|discriminate].
    inversion S; subst. destruct c; cbn; rewrite app_nil_r; frame_case.
  - cbn [step] in S. destruct (isOpen c (session p)); [|discriminate].
    inversion S; subst. destruct c; cbn; rewrite app_nil_r; frame_case.
  - cbn [step] in S.
    destruct (rendered c i (session p)) as [a|]; cbn [bind] in S; [|discriminate].
    destruct clip; cbn in S; [discriminate| |]; inversion S; subst; cbn;
      frame_case.
  - rewrite step_connect in S.
    destruct (rendered c i (session p)); cbn [option_map] in S; [|discriminate].
    inversion S; subst. frame_case.
  - cbn [step] in S. destruct (d <? 0)%Z; [discriminate|]. inversion S; subst.
    destruct (elapse_session p (now p + d)%Z) as (E1 & E2 & E3 & E4).
    frame_case.
Qed.

(** X5.  Each cell of the state has its own events: along any run, the
    payment data changes only if the run holds a load, the input text only if
    it holds typing, a modal flag only if it holds a press on a pay button or
    a close button, and the copied mark and the pending timers only if it
    holds a copy or a wait. *)
Theorem X5_each_cell_has_its_events
    (actions : list Action) (p p' : Page) (e : list Effect) :
  run p actions = Some (p', e) ->
  (forallb keeps_payment_data actions = true ->
   paymentData (session p') = paymentData (session p))
  /\ (forallb keeps_input actions = true ->
      jsonInput (session p') = jsonInput (session p))
  /\ (forallb keeps_modals actions = true ->
      showXLMModal (session p') = showXLMModal (session p)
      /\ showUSDCModal (session p') = showUSDCModal (session p))
  /\ (forallb keeps_mark actions = true ->
      copiedAddress (session p') = copiedAddress (session p)
      /\ timers p' = timers p).
Proof.
  revert p p' e. induction actions as [|a rest IH]; intros p p' e; cbn [run].
  - intros H; inversion H; subst. repeat split.
  - destruct (step p a) as [[p1 e1]|] eqn:S1; cbn [bind]; [|discriminate].
    destruct (run p1 rest) as [[p2 e2]|] eqn:R; cbn [bind]; [|discriminate].
    intros H; inversion H; subst.
    destruct (step_frame _ _ _ _ S1) as (D1 & J1 & M1 & C1).
    destruct (IH _ _ _ R) as (D2 & J2 & M2 & C2).
    cbn [forallb]. split; [|split; [|split]]; intros K;
      apply andb_true_iff in K; destruct K as [Ka Kr].
    + rewrite (D2 Kr). exact (D1 Ka).
    + rewrite (J2 Kr). exact (J1 Ka).
    + rewrite (proj1 (M2 Kr)), (proj2 (M2 Kr)). exact (M1 Ka).
    + rewrite (proj1 (C2 Kr)), (proj2 (C2 Kr)). exact (C1 Ka).
Qed.

(** X5 on opening the XLM modal, copying address 0 and connecting to it: the
    payment data is that of before. *)
Lemma X5_each_cell_has_its_events_witness :
  paymentData (setCopiedAddress (session xlm_modal_page) "XLM-0") =
    paymentData (loaded request_three_addresses).
Proof.
  refine (proj1 (X5_each_cell_has_its_events
                   [ClickPay XLM; ClickCopy XLM 0 WriteResolves; ClickConnect XLM 0]
                   {| session := loaded request_three_addresses;
                      now := 0%Z; timers := [] |}
                   {| session := setCopiedAddress (session xlm_modal_page) "XLM-0";
                      now := 0%Z; timers := [2000%Z] |}
                   _ _) eq_refl).
  vm_compute. reflexivity.
Defined.

Lemma locked_step (p p' : Page) (a : Action) (e : list Effect) :
  locked p -> a <> ClickLoad -> step p a = Some (p', e) ->
  locked p' /\ e = []
  /\ match a with TypeJson _ | Wait _ => True | _ => False end.
Proof.
  intros (D & X & U & C & T) Hn S.
  destruct a as [s| |c|c|c i clip|c i|d]; [| contradiction | | | | |].
  - cbn [step] in S. inversion S; subst. unfold locked. cbn. rewrite T.
    repeat split; assumption.
  - cbn [step] in S. rewrite D in S. discriminate.
  - cbn [step] in S. destruct c; cbn [isOpen] in S; rewrite ?X, ?U in S; discriminate.
  - cbn [step] in S. unfold rendered in S.
    destruct c; cbn [isOpen] in S; rewrite ?X, ?U in S; discriminate.
  - cbn [step] in S. unfold rendered in S.
    destruct c; cbn [isOpen] in S; rewrite ?X, ?U in S; discriminate.
  - cbn [step] in S. destruct (d <? 0)%Z; [discriminate|]. inversion S; subst.
    unfold locked, elapse. rewrite T. cbn. repeat split; assumption.
Qed.

(** X6.  Until a request is loaded the page is locked: in a run from the
    first page that never presses "Load Payment Data", the only events the
    page accepts are typing and waiting; no modal opens, no address is copied
    or connected, no timer is set and nothing is emitted. *)
Theorem X6_locked_until_load
    (actions : list Action) (p' : Page) (e : list Effect) :
  ~ In ClickLoad actions ->
  run start actions = Some (p', e) ->
  locked p' /\ e = []
  /\ Forall (fun a => match a with TypeJson _ | Wait _ => True | _ => False end)
       actions.
Proof.
  assert (L : locked start) by (repeat split).
  revert L. generalize start as p. revert p' e.
  induction actions as [|a rest IH]; intros p' e p L Hn; cbn [run].
  - intros H; inversion H; subst. repeat split; try apply L. constructor.
  - destruct (step p a) as [[p1 e1]|] eqn:S1; cbn [bind]; [|discriminate].
    destruct (run p1 rest) as [[p2 e2]|] eqn:R; cbn [bind]; [|discriminate].
    intros H; inversion H; subst.
    assert (Ha : a <> ClickLoad) by (intros ->; apply Hn; left; reflexivity).
    destruct (locked_step _ _ _ _ L Ha S1) as (L1 & -> & K).
    assert (Hr : ~ In ClickLoad rest) by (intros I; apply Hn; right; exact I).
    destruct (IH _ _ _ L1 Hr R) as (L2 & -> & F).
    split; [exact L2|]. split; [reflexivity|]. constructor; assumption.
Qed.

(** X6 on typing a text and waiting five seconds. *)
Lemma X6_locked_until_load_witness :
  locked {| session := setJsonInput initial request_150; now := 5000%Z; timers := [] |}
  /\ @nil Effect = []
  /\ Forall (fun a => match a with TypeJson _ | Wait _ => True | _ => False end)
       [TypeJson request_150; Wait 5000].
Proof.
  apply (X6_locked_until_load [TypeJson request_150; Wait 5000]).
  - intros [H|[H|[]]]; discriminate.
  - vm_compute. reflexivity.
Defined.

(** ** More on the loader *)

Lemma or_else_truthy (v : option JSValue) (d : JSValue) :
  or_else v d = d \/ truthy (or_else v d) = true.
Proof.
  destruct v as [x|]; [|left; reflexivity]. cbn [or_else].
  destruct (truthy x) eqn:T; [right; exact T|left; reflexivity].
Qed.

Lemma parsed_amount (input : string) (d : PaymentData) :
  parsed_payment input = Some d ->
  amount d = blank \/ truthy (amount d) = true.
Proof.
  unfold parsed_payment. destruct (JSON.parse input) as [data|]; [|discriminate].
  destruct data; cbn; intros H; inversion H; cbn;
    try (left; reflexivity). apply or_else_truthy.
Qed.

Lemma amount_stored_step (p p' : Page) (a : Action) (e : list Effect) :
  step p a = Some (p', e) -> amount_stored (session p) -> amount_stored (session p').
Proof.
  intros S A. unfold amount_stored in *.
  destruct (keeps_payment_data a) eqn:K.
  - rewrite (proj1 (step_frame _ _ _ _ S) K). exact A.
  - destruct a; try discriminate. cbn [step] in S. unfold loadFromJSON in S.
    destruct (parsed_payment (jsonInput (session p))) as [d|] eqn:P;
      inversion S; subst; cbn; [exact (parsed_amount _ _ P)|exact A].
Qed.

Lemma amount_stored_start : amount_stored (session start).
Proof.
  left. reflexivity.
Qed.

(** X7.  On every page the payer can reach, the stored amount is the empty
    string or a truthy value, so the two pay buttons are disabled exactly when
    the amount shown is the empty string. *)
Theorem X7_pay_disabled_iff_no_amount (p : Page) (c : Currency) :
  reachable p ->
  (step p (ClickPay c) = None <-> amount (paymentData (session p)) = JString EmptyString).
Proof.
  intros (actions & effects & R).
  pose proof (run_invariant (fun q => amount_stored (session q))
                amount_stored_step _ _ _ _ R amount_stored_start) as A.
  cbn [step]. split.
  - destruct (truthy (amount (paymentData (session p)))) eqn:T; [discriminate|].
    intros _. destruct A as [A|A]; [exact A|congruence].
  - intros E. rewrite E. reflexivity.
Qed.

(** X7 on the page that has a request without amount loaded. *)
Lemma X7_pay_disabled_iff_no_amount_witness :
  step {| session := loaded request_without_amount; now := 0%Z; timers := [] |}
    (ClickPay USDC) = None.
Proof.
  apply (X7_pay_disabled_iff_no_amount
           {| session := loaded request_without_amount; now := 0%Z; timers := [] |} USDC).
  - exists [TypeJson request_without_amount; ClickLoad], []. vm_compute. reflexivity.
  - vm_compute. reflexivity.
Defined.

(** X8.  The loader reads six keys and ignores every other member: two
    records that agree on [amount], [xlmAddresses], [usdcAddresses],
    [denomination], [businessName] and [description] load the same payment
    data. *)
Theorem X8_other_members_ignored
    (st st' : State) (members members' : list (string * JSValue)) :
  JSON.parse (jsonInput st) = Some (JObject members) ->
  JSON.parse (jsonInput st') = Some (JObject members') ->
  (forall key, In key loader_keys -> own members key = own members' key) ->
  paymentData (fst (loadFromJSON st)) = paymentData (fst (loadFromJSON st')).
Proof.
  intros P P' K. rewrite (loadFromJSON_object _ _ P), (loadFromJSON_object _ _ P').
  cbn [fst paymentData setPaymentData].
  rewrite !K by (unfold loader_keys; cbn [In]; tauto). reflexivity.
Qed.

(** X8 on the 150 USD request with and without an order id and a customer
    name. *)
Lemma X8_other_members_ignored_witness :
  paymentData (loaded request_150) = paymentData (loaded request_with_order_id).
Proof.
  apply (X8_other_members_ignored
           (setJsonInput initial request_150)
           (setJsonInput initial request_with_order_id)
           [("amount", JNumber 150 0); ("denomination", JString "USD");
            ("xlmAddresses", JArray [JString "GABC"]); ("usdcAddresses", JArray [])]
           [("orderId", JString "ORD-2025-001"); ("amount", JNumber 150 0);
            ("customerName", JString "John Doe"); ("denomination", JString "USD");
            ("xlmAddresses", JArray [JString "GABC"]); ("usdcAddresses", JArray [])]).
  - vm_compute. reflexivity.
  - vm_compute. reflexivity.
  - intros key [<-|[<-|[<-|[<-|[<-|[<-|[]]]]]]]; reflexivity.
Defined.

(** X9.  Pressing "Load Payment Data" twice is pressing it once: on a page
    that is on the screen and still is after the first press, a second press
    finds the same text, emits what the first emitted and leaves the page the
    first one left. *)
Theorem X9_load_twice (p p' : Page) (e : list Effect) :
  renders (session p) = true ->
  live_step p ClickLoad = Some (p', e) ->
  live_step p' ClickLoad = Some (p', e).
Proof.
  intros _ H. apply live_step_sound in H. destruct H as [S R].
  apply live_step_complete; [|exact R].
  cbn [step] in S |- *. unfold loadFromJSON in S |- *.
  destruct (parsed_payment (jsonInput (session p))) as [d|] eqn:P;
    rewrite handled_pure in S by reflexivity; inversion S; subst;
    cbn [session jsonInput setPaymentData]; rewrite P;
    rewrite handled_pure by reflexivity; reflexivity.
Qed.

(** X9 on the 150 USD request. *)
Lemma X9_load_twice_witness :
  live_step (page_of (loaded request_150)) ClickLoad =
    Some (page_of (loaded request_150), []).
Proof.
  apply (X9_load_twice (page_of (setJsonInput initial request_150)));
    vm_compute; reflexivity.
Defined.

Lemma parse_blank (input : string) :
  skip_ws input = EmptyString -> JSON.parse input = None.
Proof.
  intros B. unfold JSON.parse.
  replace (2 * String.length input + 2) with (S (2 * String.length input + 1)) by lia.
  cbn [parse_value]. rewrite B. reflexivity.
Qed.

(** X10.  With an empty text area, or one that holds white space only, the
    load fails: it shows "Invalid JSON format" and changes nothing. *)
Theorem X10_blank_input_is_rejected (st : State) :
  skip_ws (jsonInput st) = EmptyString ->
  loadFromJSON st = (st, [invalid_json]).
Proof.
  intros B. unfold loadFromJSON, parsed_payment. rewrite (parse_blank _ B).
  reflexivity.
Qed.

(** X10 on the first page, whose text area is empty. *)
Lemma X10_blank_input_is_rejected_witness :
  loadFromJSON initial = (initial, [invalid_json]).
Proof.
  apply (X10_blank_input_is_rejected initial). reflexivity.
Defined.

(** X11.  A text that parses to a value with none of the six keys (a number,
    a string, a boolean, an array, the empty record, a record of other keys)
    resets the payment data to the blank form of the first page. *)
Theorem X11_value_without_keys_resets (st : State) (data : JSValue) :
  JSON.parse (jsonInput st) = Some data ->
  data <> JNull ->
  (forall members key, data = JObject members -> In key loader_keys ->
                       own members key = None) ->
  loadFromJSON st = (setPaymentData st (paymentData initial), []).
Proof.
  intros P Hn K. unfold loadFromJSON, parsed_payment. rewrite P.
  destruct data; try contradiction; try reflexivity.
  cbn. rewrite !(K _ _ eq_refl) by (unfold loader_keys; cbn [In]; tauto).
  reflexivity.
Qed.

(** X11 on the empty list, typed over the loaded 150 USD request. *)
Lemma X11_value_without_keys_resets_witness :
  loadFromJSON (setJsonInput (loaded request_150) "[]") =
    (setPaymentData (setJsonInput (loaded request_150) "[]") (paymentData initial), []).
Proof.
  apply (X11_value_without_keys_resets _ (JArray [])).
  - vm_compute. reflexivity.
  - discriminate.
  - discriminate.
Defined.



(** ** Opening and closing a modal *)

Lemma setShowModal_isOpen (c : Currency) (st : State) (b : bool) :
  isOpen c (setShowModal c st b) = b.
Proof.
  destruct c; reflexivity.
Qed.

Lemma setShowModal_back (c : Currency) (st : State) :
  setShowModal c (setShowModal c st true) (isOpen c st) = st.
Proof.
  destruct c, st; reflexivity.
Qed.

Lemma setShowModal_same (c : Currency) (st : State) :
  setShowModal c st (isOpen c st) = st.
Proof.
  destruct c, st; reflexivity.
Qed.

(** A page that renders with a modal open renders as it is. *)
Lemma renders_open_alive (c : Currency) (st : State) :
  renders (setShowModal c st true) = true -> renders st = true.
Proof.
  intros R. rewrite <- (setShowModal_same c st).
  destruct (isOpen c st); [exact R|exact (renders_close c st R)].
Qed.

(** X12.  On a page whose pay buttons are enabled, where a network's modal is
    closed and can be shown (the page renders with it open): the modal has no
    close button; opening it and closing it again gives the page back as it
    was; and pressing its pay button twice is pressing it once. *)
Theorem X12_open_then_close (p : Page) (c : Currency) :
  truthy (amount (paymentData (session p))) = true ->
  isOpen c (session p) = false ->
  renders (setShowModal c (session p) true) = true ->
  live_step p (ClickClose c) = None
  /\ live_run p [ClickPay c; ClickClose c] = Some (p, [])
  /\ live_run p [ClickPay c; ClickPay c] = live_run p [ClickPay c].
Proof.
  intros T O R. split; [|split].
  - unfold live_step. cbn [step]. rewrite O. reflexivity.
  - cbn [live_run]. rewrite (live_step_pay p c T R). cbn [bind].
    assert (B : setShowModal c (setShowModal c (session p) true) false = session p)
      by (rewrite <- O at 1; apply setShowModal_back).
    rewrite (live_step_complete _ p (ClickClose c) []).
    + reflexivity.
    + cbn [step session]. rewrite setShowModal_isOpen.
      rewrite handled_pure by reflexivity. cbn [session now timers].
      rewrite B. destruct p; reflexivity.
    + exact (renders_open_alive c _ R).
  - cbn [live_run]. rewrite (live_step_pay p c T R). cbn [bind].
    assert (E : setShowModal c (setShowModal c (session p) true) true =
                setShowModal c (session p) true) by (destruct c; reflexivity).
    rewrite (live_step_pay _ c); cbn [session];
      [|destruct c; exact T|rewrite E; exact R].
    rewrite E. reflexivity.
Qed.

(** X12 on the page that has the 150 USD request loaded. *)
Lemma X12_open_then_close_witness :
  live_run (page_of (loaded request_150)) [ClickPay XLM; ClickClose XLM] =
    Some (page_of (loaded request_150), []).
Proof.
  refine (proj1 (proj2 (X12_open_then_close (page_of (loaded request_150)) XLM _ _ _)));
    vm_compute; reflexivity.
Defined.



(** ** The second version's page *)

Lemma platform1_step_selectedNetwork
    (st st' : Platform1.State) (a : Platform1.Action) (e : list Effect) :
  Platform1.step st a = Some (st', e) ->
  Platform1.selectedNetwork st' = Platform1.selectedNetwork st.
Proof.
  destruct a as [| | | |i|i]; cbn [Platform1.step].
  - intros H; inversion H; reflexivity.
  - intros H; inversion H; reflexivity.
  - destruct (Platform1.showXLMModal st); [|discriminate].
    intros H; inversion H; reflexivity.
  - destruct (Platform1.showUSDCModal st); [|discriminate].
    intros H; inversion H; reflexivity.
  - destruct (Platform1.showXLMModal st); [|discriminate].
    destruct (nth_error Platform1.stellarAddresses i); cbn [bind]; [|discriminate].
    intros H; inversion H; reflexivity.
  - destruct (Platform1.showUSDCModal st); [|discriminate].
    destruct (nth_error Platform1.usdcAddresses i); cbn [bind]; [|discriminate].
    intros H; inversion H; reflexivity.
Qed.

(** X14.  The second version never selects a network: whatever the payer
    does, [selectedNetwork] keeps the value it had, which on the first page is
    [null]. *)
Theorem X14_selectedNetwork_never_set
    (actions : list Platform1.Action) (st st' : Platform1.State) (e : list Effect) :
  Platform1.run st actions = Some (st', e) ->
  Platform1.selectedNetwork st' = Platform1.selectedNetwork st.
Proof.
  revert st st' e. induction actions as [|a rest IH]; intros st st' e;
    cbn [Platform1.run].
  - intros H; inversion H; reflexivity.
  - destruct (Platform1.step st a) as [[st1 e1]|] eqn:S1; cbn [bind]; [|discriminate].
    destruct (Platform1.run st1 rest) as [[st2 e2]|] eqn:R; cbn [bind]; [|discriminate].
    intros H; inversion H; subst.
    rewrite (IH _ _ _ R). exact (platform1_step_selectedNetwork _ _ _ _ S1).
Qed.

(** X14 on opening both modals, connecting and closing. *)
Lemma X14_selectedNetwork_never_set_witness :
  Platform1.selectedNetwork
    {| Platform1.showXLMModal := false;
       Platform1.showUSDCModal := true;
       Platform1.selectedNetwork := None |} = Platform1.selectedNetwork Platform1.initial.
Proof.
  refine (X14_selectedNetwork_never_set
            [Platform1.PayXLM; Platform1.PayUSDC; Platform1.ConnectStellar 1;
             Platform1.CloseXLM] Platform1.initial _ _ _).
  vm_compute. reflexivity.
Defined.

(** X15.  In the second version a Connect button exists exactly for an open
    modal and one of its three addresses: the stellar connect is offered when
    the XLM modal is open and the index is below three, the ethereum connect
    when the USDC modal is open and the index is below three. *)
Theorem X15_connect_offered (st : Platform1.State) (i : nat) :
  (Platform1.step st (Platform1.ConnectStellar i) <> None
   <-> Platform1.showXLMModal st = true /\ i < 3)
  /\ (Platform1.step st (Platform1.ConnectEthereum i) <> None
      <-> Platform1.showUSDCModal st = true /\ i < 3).
Proof.
  split; cbn [Platform1.step].
  - destruct (Platform1.showXLMModal st).
    + destruct (nth_error Platform1.stellarAddresses i) as [a|] eqn:N; cbn [bind].
      * split; [intros _|discriminate]. split; [reflexivity|].
        apply (nth_error_Some Platform1.stellarAddresses i). congruence.
      * apply nth_error_None in N. cbn in N.
        split; [intros C; contradiction|intros [_ C]; lia].
    + split; [intros C; contradiction|intros [C _]; discriminate].
  - destruct (Platform1.showUSDCModal st).
    + destruct (nth_error Platform1.usdcAddresses i) as [a|] eqn:N; cbn [bind].
      * split; [intros _|discriminate]. split; [reflexivity|].
        apply (nth_error_Some Platform1.usdcAddresses i). congruence.
      * apply nth_error_None in N. cbn in N.
        split; [intros C; contradiction|intros [_ C]; lia].
    + split; [intros C; contradiction|intros [C _]; discriminate].
Qed.

(** ** Slices of an address *)

Lemma substring_none (s : string) : substring 0 0 s = EmptyString.
Proof.
  destruct s; reflexivity.
Qed.

Lemma substring_whole (s : string) (m : nat) :
  String.length s <= m -> substring 0 m s = s.
Proof.
  revert m. induction s as [|c s IH]; intros [|m] L; cbn in *; try reflexivity;
    [lia|]. rewrite IH by lia. reflexivity.
Qed.

Lemma substring_length (n m : nat) (s : string) :
  String.length (substring n m s) = Nat.min m (String.length s - n).
Proof.
  revert m s. induction n as [|n IHn].
  - induction m as [|m IHm]; intros [|c s]; cbn [substring String.length];
      try reflexivity. rewrite IHm. cbn. rewrite !Nat.sub_0_r. reflexivity.
  - intros m [|c s]; cbn [substring String.length]; [lia|]. rewrite IHn. reflexivity.
Qed.

Lemma substring_split (n m1 m2 : nat) (s : string) :
  substring n (m1 + m2) s =
    (substring n m1 s ++ substring (n + m1) m2 s)%string.
Proof.
  revert m1 s. induction n as [|n IHn].
  - induction m1 as [|m1 IHm]; intros s.
    + rewrite (substring_none s). reflexivity.
    + destruct s as [|c s]; cbn [substring Nat.add String.append]; [reflexivity|].
      rewrite IHm. reflexivity.
  - intros m1 [|c s]; cbn [substring Nat.add]; [destruct m1; reflexivity|].
    apply IHn.
Qed.

Lemma append_length (s t : string) :
  String.length (s ++ t)%string = String.length s + String.length t.
Proof.
  induction s as [|c s IH]; cbn [String.append String.length]; [reflexivity|].
  rewrite IH. reflexivity.
Qed.

(** X16.  The address an [AddressButton] shows is the first 12 characters,
    three dots and the last 8.  For an address of at least 20 characters the
    two ends do not overlap and exactly the characters between them are
    hidden; an address of at most 8 characters is shown whole, twice. *)
Theorem X16_abbreviated_address (a : string) :
  String.length (Platform1.abbreviated a) =
    Nat.min 12 (String.length a) + 3 + Nat.min 8 (String.length a)
  /\ (20 <= String.length a ->
      exists middle,
        a = (substring 0 12 a ++ middle
             ++ substring (String.length a - 8) 8 a)%string
        /\ String.length middle = String.length a - 20)
  /\ (String.length a <= 8 -> Platform1.abbreviated a = (a ++ "..." ++ a)%string).
Proof.
  unfold Platform1.abbreviated. split; [|split].
  - rewrite !append_length, !substring_length. cbn [String.length]. lia.
  - intros L. exists (substring 12 (String.length a - 20) a). split.
    + rewrite <- (substring_whole a (String.length a)) at 1 by lia.
      replace (String.length a) with (12 + ((String.length a - 20) + 8)) at 1 by lia.
      rewrite (substring_split 0 12), (substring_split (0 + 12)).
      replace (0 + 12 + (String.length a - 20)) with (String.length a - 8) by lia.
      reflexivity.
    + rewrite substring_length. lia.
  - intros L. replace (String.length a - 8) with 0 by lia.
    rewrite !substring_whole by lia. reflexivity.
Qed.

(** X16 at the first of the fixed stellar addresses, 56 characters long. *)
Lemma X16_abbreviated_address_witness :
  Platform1.abbreviated "GCKFBEIYTKP5RDBZ7QVRHKK5GFTYUXD5WFJE3DFXDGF3HDVYGRRHIKMR" =
    "GCKFBEIYTKP5...GRRHIKMR"
  /\ exists middle,
      "GCKFBEIYTKP5RDBZ7QVRHKK5GFTYUXD5WFJE3DFXDGF3HDVYGRRHIKMR" =
        ("GCKFBEIYTKP5" ++ middle ++ "GRRHIKMR")%string
      /\ String.length middle = 36.
Proof.
  split; [reflexivity|].
  exact (proj1 (proj2 (X16_abbreviated_address
                         "GCKFBEIYTKP5RDBZ7QVRHKK5GFTYUXD5WFJE3DFXDGF3HDVYGRRHIKMR"))
           ltac:(cbn; lia)).
Defined.

(** X17.  A load reaches a modal that is already open: once a request with
    an address list for that network is loaded on a page that is on the
    screen and can show it, the open modal offers exactly the addresses of the new list, in their order,
    each one a value the page can display. *)
Theorem X17_open_modal_shows_new_addresses
    (p : Page) (members : list (string * JSValue)) (c : Currency)
    (items : list JSValue) :
  JSON.parse (jsonInput (session p)) = Some (JObject members) ->
  own members (list_key c) = Some (JArray items) ->
  isOpen c (session p) = true ->
  renders (session p) = true ->
  renders (fst (loadFromJSON (session p))) = true ->
  exists p',
    live_step p ClickLoad = Some (p', [])
    /\ isOpen c (session p') = true
    /\ (forall i, rendered c i (session p') = nth_error items i)
    /\ forallb renderable items = true.
Proof.
  intros P L O _ R. rewrite (loadFromJSON_object _ _ P) in R. cbn [fst] in R.
  exists {| session :=
              setPaymentData (session p)
                {| amount := or_else (own members "amount") blank;
                   xlmAddresses := or_else (own members "xlmAddresses") three_blank;
                   usdcAddresses := or_else (own members "usdcAddresses") three_blank;
                   denomination := or_else (own members "denomination") blank;
                   businessName := or_else (own members "businessName") blank;
                   description := or_else (own members "description") blank |};
            now := now p; timers := timers p |}.
  split.
  - apply live_step_complete; [|exact R].
    cbn [step]. rewrite (loadFromJSON_object _ _ P).
    rewrite handled_pure by reflexivity. reflexivity.
  - cbn [session]. split; [destruct c; exact O|]. split.
    + intros i. unfold rendered.
      destruct c; cbn in L, O |- *; rewrite O, L; reflexivity.
    + unfold renders, modal_renders in R.
      destruct c; cbn in L, O, R; rewrite O, L in R; cbn in R;
        repeat (apply andb_true_iff in R; destruct R as [R ?]);
        repeat match goal with
               | H : (_ && _)%bool = true |- _ =>
                   apply andb_true_iff in H; destruct H
               end; assumption.
Qed.

(** X17 on loading the 150 USD request under the open XLM modal. *)
Lemma X17_open_modal_shows_new_addresses_witness :
  exists p',
    live_step (page_of (setJsonInput (session xlm_modal_page) request_150)) ClickLoad =
      Some (p', [])
    /\ isOpen XLM (session p') = true
    /\ (forall i, rendered XLM i (session p') = nth_error [JString "GABC"] i)
    /\ forallb renderable [JString "GABC"] = true.
Proof.
  apply (X17_open_modal_shows_new_addresses
           (page_of (setJsonInput (session xlm_modal_page) request_150))
           [("amount", JNumber 150 0); ("denomination", JString "USD");
            ("xlmAddresses", JArray [JString "GABC"]); ("usdcAddresses", JArray [])]
           XLM [JString "GABC"]).
  - vm_compute. reflexivity.
  - reflexivity.
  - reflexivity.
  - vm_compute. reflexivity.
  - vm_compute. reflexivity.
Defined.


